(** * Email candidate generation and ranking (khoz-server)

    A shallow embedding of the email permutation engine of
    [server/index.js] ([permute] and its inner [generateRankedEmails]), of
    the multi-domain loop [processMultipleDomains] of the server entry
    file, and of the session based generator [generateEmails] with the
    [startDiscovery] / [processDomain] handlers of the discovery
    controller, followed by the properties of the specification that are
    stated about them.

    Conventions of the model.
    - A JavaScript string is a [string]: a sequence of code units below
      256; [toLowerCase] and the white space class of [trim] and [\s] are
      those of JavaScript restricted to these code units.
    - A confidence is an integer ([Z]).
    - [Array.prototype.sort] is stable (ECMAScript 2019); it is modelled
      by a stable insertion sort, every stable sort computing the same
      array for the same comparator.
    - A [Set] of strings is a [gset string].
    - [console.log] calls are not modelled. *)

From Stdlib Require Import ZArith Ascii String List Sorted Lia.
From stdpp Require Import base decidable option list sorting gmap strings pretty.

Local Open Scope string_scope.
Local Open Scope Z_scope.

(** ** JavaScript string primitives used by the sources *)

Module JS.

(** White space recognised by [String.prototype.trim] and by the regular
    expression class [\s], among the code units below 256: TAB, LF, VT,
    FF, CR, SPACE and NBSP. *)
Definition isWhiteSpace (c : ascii) : bool :=
  let n := nat_of_ascii c in
  ((9 <=? n)%nat && (n <=? 13)%nat) || (n =? 32)%nat || (n =? 160)%nat.

(** The lower-case form of a code unit below 256: the letters A to Z and
    the capital letters of the Latin-1 range (192 to 222, the
    multiplication sign 215 apart) move up by 32. *)
Definition lowerChar (c : ascii) : ascii :=
  let n := nat_of_ascii c in
  if ((65 <=? n)%nat && (n <=? 90)%nat)
     || ((192 <=? n)%nat && (n <=? 222)%nat && negb (n =? 215)%nat)
  then ascii_of_nat (n + 32) else c.

(** [s.toLowerCase()] *)
Fixpoint toLowerCase (s : string) : string :=
  match s with
  | EmptyString => EmptyString
  | String c s' => String (lowerChar c) (toLowerCase s')
  end.

Fixpoint rev_onto (s acc : string) : string :=
  match s with
  | EmptyString => acc
  | String c s' => rev_onto s' (String c acc)
  end.

Definition reverse (s : string) : string := rev_onto s EmptyString.

Fixpoint trimStart (s : string) : string :=
  match s with
  | EmptyString => EmptyString
  | String c s' => if isWhiteSpace c then trimStart s' else s
  end.

Definition trimEnd (s : string) : string := reverse (trimStart (reverse s)).

(** [s.trim()] *)
Definition trim (s : string) : string := trimEnd (trimStart s).

(** [s.split(/\s+/)]: the pieces between the maximal runs of white
    space.  [tok] is the piece being read, [inRun] tells that the last
    unit read was white space.  The empty string splits into one empty
    piece, as in JavaScript. *)
Fixpoint splitGo (tok : string) (inRun : bool) (s : string) : list string :=
  match s with
  | EmptyString => [tok]
  | String c s' =>
      if isWhiteSpace c
      then (if inRun then splitGo EmptyString true s'
            else tok :: splitGo EmptyString true s')
      else splitGo (tok +:+ String c EmptyString) false s'
  end.

Definition splitWhitespace (s : string) : list string :=
  splitGo EmptyString false s.

(** [s.charAt(0)]: the empty string when [s] is empty. *)
Definition charAt0 (s : string) : string :=
  match s with
  | EmptyString => EmptyString
  | String c _ => String c EmptyString
  end.

(** [`${s[0]}`]: indexing the empty string gives [undefined], which a
    template literal prints. *)
Definition index0 (s : string) : string :=
  match s with
  | EmptyString => "undefined"
  | String c _ => String c EmptyString
  end.

(** [s.startsWith(p)] and the rest of [s] after [p]. *)
Fixpoint stripPrefix (p s : string) : option string :=
  match p, s with
  | EmptyString, _ => Some s
  | String a p', String b s' =>
      if Ascii.eqb a b then stripPrefix p' s' else None
  | String _ _, EmptyString => None
  end.

Definition startsWith (p s : string) : bool :=
  match stripPrefix p s with Some _ => true | None => false end.

(** [s.includes(p)] *)
Fixpoint includes (p s : string) : bool :=
  startsWith p s ||
  match s with
  | EmptyString => false
  | String _ s' => includes p s'
  end.

(** [s.replace(/^p/, '')] for a literal [p]. *)
Definition dropPrefix (p s : string) : string :=
  match stripPrefix p s with Some r => r | None => s end.

(** [s.replace(/\/$/, '')]: one trailing slash is removed. *)
Definition dropTrailingSlash (s : string) : string :=
  match reverse s with
  | String "/"%char r => reverse r
  | _ => s
  end.

(** [s.replace(/^https?:\/\//, '')] *)
Definition dropScheme (s : string) : string :=
  match stripPrefix "http" s with
  | Some r =>
      match stripPrefix "s://" r with
      | Some r' => r'
      | None => match stripPrefix "://" r with Some r' => r' | None => s end
      end
  | None => s
  end.

(** A truthy string is a non-empty one. *)
Definition truthy (s : string) : bool :=
  match s with EmptyString => false | _ => true end.

End JS.

(** ** Candidates and the ranking engine *)

(** [{ email, confidence }] *)
Record Candidate : Type := mkCandidate {
  email : string;
  confidence : Z
}.

Section Ranking.

Context {A : Type} (mail : A -> string) (conf : A -> Z).

(** One step of the stable sort with the comparator
    [(a, b) => b.confidence - a.confidence]: [x] stood before every
    element of [l] and stays before those of equal confidence. *)
Fixpoint insertByConfidence (x : A) (l : list A) : list A :=
  match l with
  | [] => [x]
  | y :: l' =>
      if conf x <? conf y then y :: insertByConfidence x l' else x :: l
  end.

(** [arr.sort((a, b) => b.confidence - a.confidence)] *)
Fixpoint sortByConfidence (l : list A) : list A :=
  match l with
  | [] => []
  | x :: l' => insertByConfidence x (sortByConfidence l')
  end.

(** The [forEach] that pushes a pattern unless its email is in the
    [seenEmails] set. *)
Fixpoint pushUnseen (seenEmails : gset string) (l : list A) : list A :=
  match l with
  | [] => []
  | x :: l' =>
      if decide (mail x ∈ seenEmails)
      then pushUnseen seenEmails l'
      else x :: pushUnseen ({[ mail x ]} ∪ seenEmails) l'
  end.

(** Sort by confidence (highest first) and remove duplicates. *)
Definition rankBy (l : list A) : list A :=
  pushUnseen ∅ (sortByConfidence l).

(** [self.findIndex(e => e.email === x.email)]; [None] stands for -1. *)
Fixpoint findIndex (x : A) (self : list A) : option nat :=
  match self with
  | [] => None
  | e :: self' =>
      if String.eqb (mail e) (mail x) then Some 0%nat
      else S <$> findIndex x self'
  end.

(** [emails.filter((email, index, self) =>
      index === self.findIndex(e => e.email === email.email))] *)
Definition filterFirstIndex (emails : list A) : list A :=
  omap (fun o => o)
    (imap (fun index x =>
             if decide (findIndex x emails = Some index) then Some x else None)
          emails).

End Ranking.

(** The ranking of [{email, confidence}] objects, as written three times in
    the sources (in [generateRankedEmails], at the end of [permute] and at
    the end of [processMultipleDomains]). *)
Definition rank (l : list Candidate) : list Candidate :=
  rankBy email confidence l.

(** ** [permute] of server/index.js *)

Module Permute.

(** A value of the object parsed from the webhook output. Values other
    than [null] go through [toString()]; [JStr] holds that rendering. *)
Inductive JValue : Type :=
| JNull
| JStr (s : string).

(** The fields of [data] that [permute] reads.  [webhookResponse] holds
    the values ([Object.values]) of the JSON object found in
    [webhookResponse.output], directly or inside a json code fence, and
    the empty list when neither parses; [None] is a missing response. *)
Record Data : Type := mkData {
  domain : string;
  useCustomNames : bool;
  selectedCustomNames : list string;
  usePersonalInfo : bool;
  useAdvancedEmails : bool;
  webhookResponse : option (list JValue)
}.

(** [domain.replace(/^https?:\/\//, '').replace(/^www\./, '').replace(/\/$/, '')] *)
Definition cleanDomain (d : string) : string :=
  JS.dropTrailingSlash (JS.dropPrefix "www." (JS.dropScheme d)).

(** [name !== null && name !== 'null' && name.toString().trim() !== ''] *)
Definition keepName (v : JValue) : option string :=
  match v with
  | JNull => None
  | JStr s =>
      if String.eqb s "null" then None
      else if String.eqb (JS.trim s) "" then None
      else Some s
  end.

Definition webhookNamesOf (d : Data) : list string :=
  if usePersonalInfo d then []
  else match webhookResponse d with
       | Some values => omap keepName values
       | None => []
       end.

Section Generate.

(** The captured variables of the closure: the raw [domain], the
    [cleanDomain], the [useAdvancedEmails] flag, and the draws of
    [Math.floor(Math.random() * 100)], one for each name by its
    position. *)
Variables (domain cleanDomain : string) (useAdvancedEmails : bool).
Variable draw : nat -> nat.

Definition at_ (loc dom : string) : string := loc +:+ "@" +:+ dom.

Definition highConfidence (firstName lastName firstInitial : string)
  : list Candidate :=
  [ mkCandidate (at_ (firstName +:+ "." +:+ lastName) cleanDomain) 95;
    mkCandidate (at_ firstName cleanDomain) 90;
    mkCandidate (at_ (firstName +:+ lastName) cleanDomain) 85;
    mkCandidate (at_ (firstInitial +:+ lastName) cleanDomain) 80;
    mkCandidate (at_ lastName cleanDomain) 75 ].

Definition mediumConfidence
  (firstName lastName firstInitial lastInitial : string) : list Candidate :=
  [ mkCandidate (at_ (firstName +:+ "-" +:+ lastName) domain) 70;
    mkCandidate (at_ (firstName +:+ "_" +:+ lastName) domain) 65;
    mkCandidate (at_ (firstInitial +:+ "." +:+ lastName) domain) 60;
    mkCandidate (at_ (firstInitial +:+ lastInitial) domain) 55;
    mkCandidate (at_ (firstName +:+ firstInitial) domain) 50 ].

Definition lowerConfidence
  (firstName lastName firstInitial lastInitial : string) : list Candidate :=
  [ mkCandidate (at_ (firstInitial +:+ "-" +:+ lastName) domain) 45;
    mkCandidate (at_ (firstInitial +:+ "_" +:+ lastName) domain) 40;
    mkCandidate (at_ (firstName +:+ lastInitial) domain) 35;
    mkCandidate (at_ (lastName +:+ firstInitial) domain) 30;
    mkCandidate (at_ (firstInitial +:+ "." +:+ firstInitial) domain) 25 ].

Definition advancedPatterns
  (firstName lastName firstInitial lastInitial : string) (r : nat)
  : list Candidate :=
  [ mkCandidate (at_ (firstName +:+ lastName +:+ firstInitial) domain) 20;
    mkCandidate (at_ (lastName +:+ firstName) domain) 15;
    mkCandidate (at_ (firstInitial +:+ lastName +:+ lastInitial) domain) 10;
    mkCandidate (at_ (firstName +:+ lastName +:+ pretty (r mod 100)%nat) domain) 5 ].

(** The body of [names.forEach(fullName => ...)]: what one name pushes
    on [allEmailPatterns]. *)
Definition personEmails (i : nat) (fullName : string) : list Candidate :=
  let nameParts := JS.splitWhitespace (JS.trim fullName) in
  match nameParts with
  | [] => []
  | first :: _ =>
      let firstName := JS.toLowerCase first in
      let lastName := JS.toLowerCase (List.last nameParts first) in
      let firstInitial := JS.charAt0 firstName in
      let lastInitial := JS.charAt0 lastName in
      ((if useAdvancedEmails
        then advancedPatterns firstName lastName firstInitial lastInitial (draw i)
        else [])
       ++ highConfidence firstName lastName firstInitial
       ++ mediumConfidence firstName lastName firstInitial lastInitial
       ++ lowerConfidence firstName lastName firstInitial lastInitial)%list
  end.

Definition allEmailPatterns (names : list string) : list Candidate :=
  concat (imap personEmails names).

Definition generateRankedEmails (names : list string) : list Candidate :=
  rank (allEmailPatterns names).

End Generate.

(** [selectedCustomNames.map(name => ({ email: `${name}@${cleanDomain}`, confidence: 95 }))] *)
Definition customEmails (clean : string) (names : list string) : list Candidate :=
  map (fun name => mkCandidate (at_ name clean) 95) names.

Definition allEmails (draw : nat -> nat) (d : Data) : list Candidate :=
  let clean := cleanDomain (domain d) in
  let webhookNames := webhookNamesOf d in
  ((match webhookNames with
    | [] => []
    | _ => generateRankedEmails (domain d) clean (useAdvancedEmails d) draw webhookNames
    end)
   ++ (if useCustomNames d then customEmails clean (selectedCustomNames d) else []))%list.

Definition permute (draw : nat -> nat) (d : Data) : list Candidate :=
  rank (allEmails draw d).

End Permute.

(** ** [processMultipleDomains] of the server entry file *)

Module Server.

Import Permute.

(** What the request to the name-resolution service gave for one
    domain. *)
Inductive FetchOutcome : Type :=
| FetchThrows                              (* [fetch] or reading the body throws *)
| ResponseNotOk                            (* [perplexityResponse.ok] is false *)
| NoContent                                (* no [choices[0].message.content] *)
| ContentUnparseable                       (* [JSON.parse(cleanContent)] throws *)
| ContentParsed (values : list JValue).    (* the values of the parsed object *)

(** [formData.selectedCustomNames]: a missing or empty field, a text
    that [JSON.parse] rejects with [message], or the text of an array of
    strings. *)
Inductive CustomNamesField : Type :=
| FieldAbsent
| FieldInvalid (message : string)
| FieldArray (names : list string).

(** The fields of [req.body] that the loop reads; the flags arrive as
    text and are compared with ['true']. *)
Record FormData : Type := mkFormData {
  fdDomain : string;
  fdUseCustomNames : string;
  fdUsePersonalInfo : string;
  fdUseAdvancedEmails : string;
  fdSelectedCustomNames : CustomNamesField
}.

Inductive Status : Type := completed | error.

(** An element of [results]. *)
Record DomainResult : Type := mkDomainResult {
  drDomain : string;
  drEmails : list Candidate;
  drWebhookResponse : option (list JValue);
  drStatus : Status;
  drError : option string
}.

(** What the loop does to the outside, in order. *)
Inductive Event : Type :=
| EvFetch (domain : string)     (* [await fetch(...)] for the domain *)
| EvDelay (ms : Z).             (* [await new Promise(r => setTimeout(r, ms))] *)

Record Batch : Type := mkBatch {
  domainResults : list DomainResult;
  globalEmails : list Candidate
}.

(** [Object.values(generateFallbackData(domain))] *)
Definition generateFallbackData (domain : string) : list JValue :=
  [ JNull; JNull; JNull; JNull;
    JStr ("Fallback data generated for " +:+ domain +:+ " due to API limitations") ].

(** The [webhookResponse] left by the inner [try]/[catch]. *)
Definition webhookResponseOf (domain : string) (o : FetchOutcome)
  : option (list JValue) :=
  match o with
  | FetchThrows => Some (generateFallbackData domain)
  | ResponseNotOk => None
  | NoContent => None
  | ContentUnparseable => Some (generateFallbackData domain)
  | ContentParsed values => Some values
  end.

(** [formData.selectedCustomNames ? JSON.parse(formData.selectedCustomNames) : []],
    [inl] being the exception. *)
Definition parseSelectedCustomNames (f : CustomNamesField)
  : string + list string :=
  match f with
  | FieldAbsent => inr []
  | FieldInvalid message => inl message
  | FieldArray names => inr names
  end.

Section Domains.

(** [new URL(u).hostname], [None] when the constructor throws, and the
    first group of [/(?:https?:\/\/)?(?:www\.)?([^\/\s]+)/] in the
    text, [None] when there is no match. *)
Variables (urlHostname regexHost : string -> option string).

Definition cleanEntry (domain : string) : string :=
  if JS.includes "://" domain then
    match urlHostname (if JS.startsWith "http" domain then domain
                       else "https://" +:+ domain) with
    | Some hostname => JS.dropPrefix "www." hostname
    | None =>
        match regexHost domain with
        | Some m => JS.dropPrefix "www." m
        | None => JS.dropPrefix "www." domain
        end
    end
  else JS.dropPrefix "www." domain.

Definition allDomains (formData : FormData) (domainsFromFile : list string)
  : list string :=
  ((if JS.truthy (fdDomain formData) && JS.truthy (JS.trim (fdDomain formData))
    then [JS.toLowerCase (JS.trim (fdDomain formData))] else [])
   ++ domainsFromFile)%list.

(** [[...new Set(allDomains)].filter(...).map(...)] *)
Definition uniqueDomains (formData : FormData) (domainsFromFile : list string)
  : list string :=
  map cleanEntry
    (filter (fun domain =>
               Is_true (JS.truthy domain && JS.includes "." domain
                        && negb (JS.startsWith "#" domain)))
            (pushUnseen (fun d => d) ∅ (allDomains formData domainsFromFile))).

End Domains.

Section Loop.

Variable formData : FormData.
(** The outcome of the request for a domain, and the random draws of
    [permute] for the domain at a position. *)
Variable resolve : string -> FetchOutcome.
Variable draw : nat -> nat -> nat.

(** [results], [allCombinedEmails] and the events so far. *)
Record LoopState : Type := mkLoopState {
  results : list DomainResult;
  allCombinedEmails : list Candidate;
  trace : list Event
}.

(** The body of the [for] loop at index [i] of [n] domains. *)
Definition iteration (n i : nat) (domain : string) (st : LoopState)
  : LoopState :=
  let webhookResponse := webhookResponseOf domain (resolve domain) in
  let fetched := (trace st ++ [EvFetch domain])%list in
  match parseSelectedCustomNames (fdSelectedCustomNames formData) with
  | inr names =>
      let data :=
        {| Permute.domain := domain;
           useCustomNames := String.eqb (fdUseCustomNames formData) "true";
           selectedCustomNames := names;
           usePersonalInfo := String.eqb (fdUsePersonalInfo formData) "true";
           useAdvancedEmails := String.eqb (fdUseAdvancedEmails formData) "true";
           Permute.webhookResponse := webhookResponse |} in
      let emails := permute (draw i) data in
      {| results :=
           (results st ++
              [mkDomainResult domain emails webhookResponse completed None])%list;
         allCombinedEmails := (allCombinedEmails st ++ emails)%list;
         trace :=
           (fetched ++ if (i <? n - 1)%nat then [EvDelay 1000] else [])%list |}
  | inl message =>
      {| results :=
           (results st ++
              [mkDomainResult domain [] None error (Some message)])%list;
         allCombinedEmails := allCombinedEmails st;
         trace := fetched |}
  end.

(** [for (let i = 0; i < uniqueDomains.length; i++)], from index [i]
    on, [rest] being the domains not yet visited. *)
Fixpoint loopFrom (n i : nat) (rest : list string) (st : LoopState)
  : LoopState :=
  match rest with
  | [] => st
  | domain :: rest' => loopFrom n (S i) rest' (iteration n i domain st)
  end.

Definition runLoop (domains : list string) : LoopState :=
  loopFrom (length domains) 0 domains (mkLoopState [] [] []).

(** The loop over the cleaned domains followed by the global ranking;
    the events come with the returned object. *)
Definition processDomains (domains : list string) : Batch * list Event :=
  let st := runLoop domains in
  (mkBatch (results st) (rank (allCombinedEmails st)), trace st).

End Loop.

Definition processMultipleDomains
  (urlHostname regexHost : string -> option string)
  (resolve : string -> FetchOutcome) (draw : nat -> nat -> nat)
  (formData : FormData) (domainsFromFile : list string)
  : Batch * list Event :=
  processDomains formData resolve draw
    (uniqueDomains urlHostname regexHost formData domainsFromFile).

End Server.

(** ** The discovery controller: [generateEmails], [startDiscovery],
       [processDomain] *)

Module Discovery.

Inductive Method : Type :=
| personal_info | nickname | custom_names | advanced_patterns.

(** [{ email, confidence, generationMethod }] *)
Record Discovered : Type := mkDiscovered {
  email : string;
  confidence : Z;
  generationMethod : Method
}.

(** [formData] of a session.  A missing text field is the empty string
    and a missing list the empty list: both are falsy where the code
    tests them. *)
Record FormData : Type := mkFormData {
  firstName : string;
  lastName : string;
  nickName : string;
  middleName : string;
  customName : string;
  useNickName : bool;
  useCustomNames : bool;
  usePersonalInfo : bool;
  useAdvancedEmails : bool;
  selectedCustomNames : list string
}.

Definition at_ (loc dom : string) : string := loc +:+ "@" +:+ dom.

Definition when {A : Type} (b : bool) (l : list A) : list A :=
  if b then l else [].

(** The pushes on [emails], in the order of the source. *)
Definition pushed (formData : FormData) (domain : string) : list Discovered :=
  let first := JS.toLowerCase (firstName formData) in
  let last := JS.toLowerCase (lastName formData) in
  let middle := JS.toLowerCase (middleName formData) in
  let nick := JS.toLowerCase (nickName formData) in
  let hasFirst := JS.truthy (firstName formData) in
  let hasLast := JS.truthy (lastName formData) in
  (when (usePersonalInfo formData)
     (when (hasFirst && hasLast)
        [ mkDiscovered (at_ (first +:+ "." +:+ last) domain) 85 personal_info;
          mkDiscovered (at_ (first +:+ last) domain) 80 personal_info;
          mkDiscovered (at_ (JS.index0 first +:+ last) domain) 75 personal_info;
          mkDiscovered (at_ (first +:+ "_" +:+ last) domain) 70 personal_info ]
      ++ when hasFirst [ mkDiscovered (at_ first domain) 60 personal_info ]
      ++ when hasLast [ mkDiscovered (at_ last domain) 55 personal_info ]
      ++ when (hasFirst && JS.truthy (middleName formData) && hasLast)
           [ mkDiscovered (at_ (first +:+ "." +:+ middle +:+ "." +:+ last) domain)
               65 personal_info ])
   ++ when (useNickName formData && JS.truthy (nickName formData))
        (mkDiscovered (at_ nick domain) 70 nickname
         :: when hasLast
              [ mkDiscovered (at_ (nick +:+ "." +:+ last) domain) 65 nickname ])
   ++ when (useCustomNames formData && JS.truthy (customName formData))
        [ mkDiscovered (at_ (JS.toLowerCase (customName formData)) domain)
            90 custom_names ]
   ++ map (fun name =>
             mkDiscovered (at_ (JS.toLowerCase name) domain) 90 custom_names)
        (selectedCustomNames formData)
   ++ when (useAdvancedEmails formData)
        (when (hasFirst && hasLast)
           [ mkDiscovered (at_ (first +:+ "-" +:+ last) domain) 70 advanced_patterns;
             mkDiscovered (at_ (first +:+ JS.index0 last) domain) 65 advanced_patterns;
             mkDiscovered (at_ (JS.index0 first +:+ "." +:+ last) domain)
               75 advanced_patterns ]
         ++ when hasFirst
              [ mkDiscovered (at_ (first +:+ "1") domain) 50 advanced_patterns;
                mkDiscovered (at_ (first +:+ "2") domain) 45 advanced_patterns ]))%list.

(** Remove duplicates and sort by confidence, in that order. *)
Definition generateEmails (formData : FormData) (domain : string)
  : list Discovered :=
  sortByConfidence confidence (filterFirstIndex email (pushed formData domain)).

(** *** Sessions *)

(** A numeric field of the request body: a number, or a text that
    denotes an integer.  The validator [isInt] accepts both and does not
    convert the text. *)
Inductive RawNumber : Type :=
| AsNumber (n : Z)
| AsText (n : Z).

Definition numberOf (v : RawNumber) : Z :=
  match v with AsNumber n => n | AsText n => n end.

(** [config] of the request body: a missing field is [None]. *)
Record RawConfig : Type := mkRawConfig {
  rawMaxEmailsPerDomain : option RawNumber;
  rawConfidenceThreshold : option RawNumber
}.

Record Config : Type := mkConfig {
  maxEmailsPerDomain : Z;
  confidenceThreshold : Z
}.

(** [v || d] as the schema stores it: a missing field and the number 0
    are falsy and give the default; a text is truthy, the text of 0 too,
    and is cast to its number. *)
Definition orDefault (v : option RawNumber) (d : Z) : Z :=
  match v with
  | Some (AsNumber n) => if n =? 0 then d else n
  | Some (AsText n) => n
  | None => d
  end.

(** [.optional().isInt({ min, max })] of [validateStartDiscovery]. *)
Definition optionalInt (lo hi : Z) (v : option RawNumber) : bool :=
  match v with
  | Some n => (lo <=? numberOf n) && (numberOf n <=? hi)
  | None => true
  end.

Definition validConfig (c : RawConfig) : bool :=
  optionalInt 1 1000 (rawMaxEmailsPerDomain c)
  && optionalInt 0 100 (rawConfidenceThreshold c).

Inductive SessionStatus : Type :=
| s_pending | s_processing | s_completed | s_failed | s_cancelled.

Inductive DomainStatus : Type :=
| d_pending | d_processing | d_completed | d_error.

Record DomainEntry : Type := mkDomainEntry {
  deDomain : string;
  deStatus : DomainStatus;
  emailsCount : Z;
  errorMessage : option string
}.

Record Session : Type := mkSession {
  status : SessionStatus;
  domains : list DomainEntry;
  sFormData : FormData;
  config : Config;
  totalDomains : Z;
  processedDomains : Z;
  currentDomainIndex : Z;
  totalEmailsDiscovered : Z
}.

(** A document of the [EmailDiscovery] collection, without the user
    and session identifiers and the name metadata. *)
Record EmailDocument : Type := mkEmailDocument {
  docEmail : string;
  docDomain : string;
  docConfidence : Z;
  docGenerationMethod : Method
}.

Record StartRequest : Type := mkStartRequest {
  reqDomains : list string;
  reqFormData : FormData;
  reqConfig : RawConfig
}.

(** [startDiscovery]: the session that is saved and started, or [None]
    for the 400 answers.  Of the validators, those of [config] are
    modelled; the schema lower-cases and trims a domain. *)
Definition startDiscovery (req : StartRequest) : option Session :=
  if negb (validConfig (reqConfig req)) then None
  else match reqDomains req with
       | [] => None
       | ds =>
           Some {| status := s_processing;
                   domains :=
                     map (fun d => mkDomainEntry (JS.toLowerCase (JS.trim d))
                                     d_pending 0 None) ds;
                   sFormData := reqFormData req;
                   config :=
                     {| maxEmailsPerDomain :=
                          orDefault (rawMaxEmailsPerDomain (reqConfig req)) 100;
                        confidenceThreshold :=
                          orDefault (rawConfidenceThreshold (reqConfig req)) 25 |};
                   totalDomains := Z.of_nat (length ds);
                   processedDomains := 0;
                   currentDomainIndex := 0;
                   totalEmailsDiscovered := 0 |}
       end.

(** [arr.slice(0, end)]: a negative [end] counts from the end of the
    array. *)
Definition slice0 {A : Type} (l : list A) (e : Z) : list A :=
  let len := Z.of_nat (length l) in
  let final := if e <? 0 then Z.max (len + e) 0 else Z.min e len in
  take (Z.to_nat final) l.

(** [email.confidence >= session.config.confidenceThreshold] *)
Definition filteredEmails (s : Session) (generated : list Discovered)
  : list Discovered :=
  filter (fun e => confidenceThreshold (config s) <= confidence e) generated.

Definition limitedEmails (s : Session) (domain : string) : list Discovered :=
  slice0 (filteredEmails s (generateEmails (sFormData s) domain))
         (maxEmailsPerDomain (config s)).

(** The documents as [insertMany] stores them: the schema of
    [EmailDiscovery] trims and lower-cases [email] and [domain]. *)
Definition emailDocuments (domain : string) (limited : list Discovered)
  : list EmailDocument :=
  map (fun e => mkEmailDocument (JS.toLowerCase (JS.trim (email e)))
                  (JS.toLowerCase (JS.trim domain)) (confidence e)
                  (generationMethod e)) limited.

(** [session.completeDomain(domainIndex, emailsCount, errorMessage)]:
    the session as the call leaves it and the message with which the
    returned promise is rejected, if it is.  When the domains are all
    processed, [completeSession()] starts a save and the method returns
    a second save of the same document, which is rejected with the
    message [parallelSave] of the library.  The session is the document
    as the call leaves it; a session whose domains are all processed is
    completed and no later request changes it.  The [errors] log and the
    dates of the session are not modelled. *)
Definition completeDomain (parallelSave : string) (s : Session)
  (domainIndex : nat) (count : Z) (err : option string)
  : Session * option string :=
  match domains s !! domainIndex with
  | None => (s, Some "Invalid domain index")
  | Some d =>
      let processed := processedDomains s + 1 in
      let allProcessed := totalDomains s <=? processed in
      ({| status := if allProcessed then s_completed else status s;
          domains :=
            <[ domainIndex :=
                 mkDomainEntry (deDomain d)
                   (match err with
                    | Some m => if JS.truthy m then d_error else d_completed
                    | None => d_completed
                    end)
                   count err ]> (domains s);
          sFormData := sFormData s;
          config := config s;
          totalDomains := totalDomains s;
          processedDomains := processed;
          currentDomainIndex := Z.of_nat domainIndex + 1;
          totalEmailsDiscovered := totalEmailsDiscovered s + count |},
       if allProcessed then Some parallelSave else None)
  end.

Inductive Response : Type :=
| BadRequest (error : string)
| Processed (domain : string) (emailsDiscovered : Z) (emails : list Discovered)
| ServerError (message : string).

(** The [catch (domainError)] of [processDomain]: the domain is
    completed again with no email and the message; when that call is
    rejected too, the outer [catch] answers with its message. *)
Definition failDomain (parallelSave : string) (s : Session) (domainIndex : nat)
  (message : string) (collection : list EmailDocument)
  : Response * Session * list EmailDocument :=
  match completeDomain parallelSave s domainIndex 0 (Some message) with
  | (s', None) => (ServerError message, s', collection)
  | (s', Some outer) => (ServerError outer, s', collection)
  end.

(** [processDomain] on a session that was found.  [insertMany] is the
    outcome of the insertion, [Some message] when the collaborator
    rejects it.  The answer comes with the session and the
    [EmailDiscovery] collection as they are left. *)
Definition processDomain (parallelSave : string) (insertMany : option string)
  (s : Session) (collection : list EmailDocument) (domainIndex : nat)
  : Response * Session * list EmailDocument :=
  match status s with
  | s_processing =>
      match domains s !! domainIndex with
      | None => (BadRequest "Invalid domain index", s, collection)
      | Some domain =>
          match deStatus domain with
          | d_pending =>
              let limited := limitedEmails s (deDomain domain) in
              let docs := emailDocuments (deDomain domain) limited in
              let count := Z.of_nat (length limited) in
              let started :=
                {| status := status s;
                   domains :=
                     <[ domainIndex :=
                          mkDomainEntry (deDomain domain) d_processing
                            (emailsCount domain) (errorMessage domain) ]>
                       (domains s);
                   sFormData := sFormData s;
                   config := config s;
                   totalDomains := totalDomains s;
                   processedDomains := processedDomains s;
                   currentDomainIndex := currentDomainIndex s;
                   totalEmailsDiscovered := totalEmailsDiscovered s |} in
              match docs, insertMany with
              | _ :: _, Some message =>
                  failDomain parallelSave started domainIndex message collection
              | _, _ =>
                  match completeDomain parallelSave started domainIndex count None with
                  | (s', None) =>
                      (Processed (deDomain domain) count limited, s',
                       (collection ++ docs)%list)
                  | (s', Some message) =>
                      failDomain parallelSave s' domainIndex message
                        (collection ++ docs)%list
                  end
              end
          | _ => (BadRequest "Domain already processed or being processed",
                  s, collection)
          end
      end
  | _ => (BadRequest "Session is not in processing state", s, collection)
  end.

End Discovery.

(** * Vocabulary of the specification and sample inputs *)

(** [a] may stand before [b] in a confidence-descending sequence. *)
Definition descending {A : Type} (conf : A -> Z) (a b : A) : Prop :=
  conf b <= conf a.

(** [s] ends with [suffix]: what stands before it. *)
Definition stripSuffix (suffix s : string) : option string :=
  JS.reverse <$> JS.stripPrefix (JS.reverse suffix) (JS.reverse s).

(** The email is a lower-case local part, [@], and the cleaned domain. *)
Definition isCleanCandidate (clean : string) (c : Candidate) : bool :=
  match stripSuffix ("@" +:+ clean) (email c) with
  | Some loc => String.eqb (JS.toLowerCase loc) loc
  | None => false
  end.

(** [data] with another webhook response. *)
Definition withWebhook (d : Permute.Data) (values : option (list Permute.JValue))
  : Permute.Data :=
  {| Permute.domain := Permute.domain d;
     Permute.useCustomNames := Permute.useCustomNames d;
     Permute.selectedCustomNames := Permute.selectedCustomNames d;
     Permute.usePersonalInfo := Permute.usePersonalInfo d;
     Permute.useAdvancedEmails := Permute.useAdvancedEmails d;
     Permute.webhookResponse := values |}.

(** The events of a batch in which every domain but the last is followed
    by the delay. *)
Fixpoint spacedFetches (domains : list string) : list Server.Event :=
  match domains with
  | [] => []
  | d :: rest =>
      match rest with
      | [] => [Server.EvFetch d]
      | _ :: _ => Server.EvFetch d :: Server.EvDelay 1000 :: spacedFetches rest
      end
  end.



Module Samples.

Import Permute.

Definition noDraw : nat -> nat := fun _ => 0%nat.
Definition noDraws : nat -> nat -> nat := fun _ _ => 0%nat.
Definition noHost : string -> option string := fun _ => None.

Definition catalogJohnDoe : list Candidate :=
  [ mkCandidate "john.doe@example.com" 95;
    mkCandidate "john@example.com" 90;
    mkCandidate "johndoe@example.com" 85;
    mkCandidate "jdoe@example.com" 80;
    mkCandidate "doe@example.com" 75;
    mkCandidate "john-doe@example.com" 70;
    mkCandidate "john_doe@example.com" 65;
    mkCandidate "j.doe@example.com" 60;
    mkCandidate "jd@example.com" 55;
    mkCandidate "johnj@example.com" 50;
    mkCandidate "j-doe@example.com" 45;
    mkCandidate "j_doe@example.com" 40;
    mkCandidate "johnd@example.com" 35;
    mkCandidate "doej@example.com" 30;
    mkCandidate "j.j@example.com" 25 ].

(** [permute] on the name john doe found by the webhook. *)
Definition johnDoeData (domain : string) : Data :=
  {| domain := domain;
     useCustomNames := false;
     selectedCustomNames := [];
     usePersonalInfo := false;
     useAdvancedEmails := false;
     webhookResponse := Some [JStr "John Doe"] |}.

Definition customOnlyData (names : list string) : Data :=
  {| domain := "example.com";
     useCustomNames := true;
     selectedCustomNames := names;
     usePersonalInfo := false;
     useAdvancedEmails := false;
     webhookResponse := None |}.

(** The name resolution answers for every domain but bad.com. *)
Definition failsForBad (domain : string) : Server.FetchOutcome :=
  if String.eqb domain "bad.com" then Server.FetchThrows
  else Server.ContentParsed [JStr "Jane Roe"; JNull; JNull; JNull].

Definition plainForm : Server.FormData :=
  Server.mkFormData "" "false" "false" "false" Server.FieldAbsent.

Definition brokenNamesForm : Server.FormData :=
  Server.mkFormData "" "true" "false" "false"
    (Server.FieldInvalid "Unexpected token o in JSON at position 1").

Definition onlyFirst : Discovery.FormData :=
  Discovery.mkFormData "John" "" "" "" "" false false true false [].

Definition firstAsNick : Discovery.FormData :=
  Discovery.mkFormData "John" "" "john" "" "" true false true false [].

Definition johnDoeForm : Discovery.FormData :=
  Discovery.mkFormData "John" "Doe" "" "" "" false false true false [].

Definition startJohnDoe : Discovery.StartRequest :=
  Discovery.mkStartRequest ["example.com"; "example.org"] johnDoeForm
    (Discovery.mkRawConfig (Some (Discovery.AsNumber 3))
       (Some (Discovery.AsNumber 60))).

(** The session that [startDiscovery] makes of [startJohnDoe]. *)
Definition startedJohnDoe : Discovery.Session :=
  Discovery.mkSession Discovery.s_processing
    [ Discovery.mkDomainEntry "example.com" Discovery.d_pending 0 None;
      Discovery.mkDomainEntry "example.org" Discovery.d_pending 0 None ]
    johnDoeForm (Discovery.mkConfig 3 60) 2 0 0 0.




(** A request whose threshold is the number 0 and one whose threshold
    is the text of 0, with the sessions that [startDiscovery] makes of
    them. *)
Definition startNumberZero : Discovery.StartRequest :=
  Discovery.mkStartRequest ["example.com"; "example.org"] johnDoeForm
    (Discovery.mkRawConfig None (Some (Discovery.AsNumber 0))).

Definition startTextZero : Discovery.StartRequest :=
  Discovery.mkStartRequest ["example.com"; "example.org"] johnDoeForm
    (Discovery.mkRawConfig None (Some (Discovery.AsText 0))).

Definition startedNumberZero : Discovery.Session :=
  Discovery.mkSession Discovery.s_processing
    [ Discovery.mkDomainEntry "example.com" Discovery.d_pending 0 None;
      Discovery.mkDomainEntry "example.org" Discovery.d_pending 0 None ]
    johnDoeForm (Discovery.mkConfig 100 25) 2 0 0 0.

Definition startedTextZero : Discovery.Session :=
  Discovery.mkSession Discovery.s_processing
    [ Discovery.mkDomainEntry "example.com" Discovery.d_pending 0 None;
      Discovery.mkDomainEntry "example.org" Discovery.d_pending 0 None ]
    johnDoeForm (Discovery.mkConfig 100 0) 2 0 0 0.

(** Two selected names that differ by a space in front. *)
Definition twoBossForm : Discovery.FormData :=
  Discovery.mkFormData "" "" "" "" "" false false false false ["boss"; " boss"].

Definition startedTwoBoss : Discovery.Session :=
  Discovery.mkSession Discovery.s_processing
    [ Discovery.mkDomainEntry "a.com" Discovery.d_pending 0 None;
      Discovery.mkDomainEntry "b.com" Discovery.d_pending 0 None ]
    twoBossForm (Discovery.mkConfig 100 25) 2 0 0 0.

(** The message with which the library rejects a parallel save. *)
Definition parallelSave : string :=
  "Can't save() the same doc multiple times in parallel.".

End Samples.


(** The session in which the domain [i] is settled as [entry] and the
    counters are [processed] and [discovered]; it is completed when the
    settled domain is the last one to be counted. *)
Definition settleAt (s : Discovery.Session) (i : nat)
  (entry : Discovery.DomainEntry) (processed discovered : Z)
  : Discovery.Session :=
  {| Discovery.status :=
       if Discovery.totalDomains s <=? Discovery.processedDomains s + 1
       then Discovery.s_completed else Discovery.status s;
     Discovery.domains := <[ i := entry ]> (Discovery.domains s);
     Discovery.sFormData := Discovery.sFormData s;
     Discovery.config := Discovery.config s;
     Discovery.totalDomains := Discovery.totalDomains s;
     Discovery.processedDomains := processed;
     Discovery.currentDomainIndex := Z.of_nat i + 1;
     Discovery.totalEmailsDiscovered := discovered |}.

(** The entry of a domain that is settled with a message. *)
Definition failedEntry (domain message : string) : Discovery.DomainEntry :=
  Discovery.mkDomainEntry domain
    (if JS.truthy message then Discovery.d_error else Discovery.d_completed)
    0 (Some message).


(** The partial failure of a batch as the specification states it for the
    domains good.com and bad.com. *)
Definition partialFailureAsStated (b : Server.Batch) : Prop :=
  exists good bad,
    Server.domainResults b = [good; bad] /\
    Server.drDomain good = "good.com" /\ Server.drStatus good = Server.completed /\
    Server.drDomain bad = "bad.com" /\ Server.drStatus bad = Server.error /\
    is_Some (Server.drError bad) /\
    Server.globalEmails b = rank (Server.drEmails good).

(** What the loop leaves for a domain: completed with the response of
    the inner [try], or, when the custom names do not parse, an error
    with the message and no candidates. *)
Definition settled (formData : Server.FormData)
  (resolve : string -> Server.FetchOutcome) (r : Server.DomainResult) : Prop :=
  match Server.parseSelectedCustomNames (Server.fdSelectedCustomNames formData) with
  | inr _ =>
      Server.drStatus r = Server.completed /\ Server.drError r = None /\
      Server.drWebhookResponse r =
        Server.webhookResponseOf (Server.drDomain r) (resolve (Server.drDomain r))
  | inl message =>
      Server.drStatus r = Server.error /\ Server.drError r = Some message /\
      Server.drEmails r = []
  end.

(** * Further parts of the server *)

(** ** Splitting a text at a code unit *)

Module JSText.

(** [s.split(sep)] for a separator of one code unit; the empty string
    splits into one empty piece. *)
Fixpoint splitGo (sep : ascii) (piece s : string) : list string :=
  match s with
  | EmptyString => [piece]
  | String c s' =>
      if Ascii.eqb c sep then piece :: splitGo sep EmptyString s'
      else splitGo sep (piece +:+ String c EmptyString) s'
  end.

Definition splitOn (sep : ascii) (s : string) : list string :=
  splitGo sep EmptyString s.

(** The code unit occurs in the text. *)
Fixpoint occurs (c : ascii) (s : string) : bool :=
  match s with
  | EmptyString => false
  | String a s' => Ascii.eqb a c || occurs c s'
  end.

End JSText.

(** ** The domain file of the [/permute] handler *)

Module Upload.

(** The lines of the uploaded file that the [/permute] handler keeps:
    [fileContent.split('\n').map(line => line.trim())
       .filter(line => line && !line.startsWith('#') && line.includes('.'))
       .map(line => line.toLowerCase())] *)
Definition domainsFromFile (fileContent : string) : list string :=
  map JS.toLowerCase
    (filter (fun line =>
               Is_true (JS.truthy line && negb (JS.startsWith "#" line)
                        && JS.includes "." line))
       (map JS.trim (JSText.splitOn "010"%char fileContent))).

(** [readDomainsFromFile(filePath)], on the content that [readFileSync]
    gives, [None] when it throws: the [catch] returns the empty array. *)
Definition readDomainsFromFile (file : option string) : list string :=
  match file with
  | None => []
  | Some content =>
      map JS.toLowerCase
        (filter (fun line =>
                   Is_true (JS.truthy line && negb (JS.startsWith "#" line)))
           (map JS.trim (JSText.splitOn "010"%char content)))
  end.

End Upload.

(** ** The verification service and the [/api/smart-verify] handler *)

Module Verification.

(** What [client.single.check(email)] gives: the [result] text, the
    [flags] when there are some and the suggested correction (empty when
    there is none), or an exception with its message. *)
Inductive CheckOutcome : Type :=
| Checked (result : string) (flags : option (list string))
    (suggested_correction : string)
| CheckThrows (message : string).

(** [syntax] of a mapped result; [domain] is [email.split('@')[1]],
    undefined when the email has no at sign. *)
Record Syntax : Type := mkSyntax {
  username : string;
  domain : option string;
  valid : bool
}.

Record Smtp : Type := mkSmtp {
  host_exists : bool;
  full_inbox : bool;
  catch_all : bool;
  deliverable : bool;
  disabled : bool
}.

(** The object that [verifyEmail] returns, without the constant fields
    [verificationMethod] and [gravatar] and the raw result that is kept
    for debugging. *)
Inductive VerificationResult : Type :=
| Mapped (email : string) (cost : Z) (reachable : string) (syntax : Syntax)
    (smtp : Smtp) (suggestion : string) (disposable : bool)
    (role_account free has_mx_records : option bool)
| Failed (email : string) (error : string) (cost : Z).

Definition resultEmail (r : VerificationResult) : string :=
  match r with
  | Mapped email _ _ _ _ _ _ _ _ _ => email
  | Failed email _ _ => email
  end.

Definition resultCost (r : VerificationResult) : Z :=
  match r with
  | Mapped _ cost _ _ _ _ _ _ _ _ => cost
  | Failed _ _ cost => cost
  end.

(** [mapNeverBounceStatus(status)] *)
Definition mapNeverBounceStatus (status : string) : string :=
  if String.eqb status "valid" then "yes"
  else if String.eqb status "invalid" then "no"
  else if String.eqb status "catchall" then "yes"
  else if String.eqb status "disposable" then "yes"
  else if String.eqb status "unknown" then "unknown"
  else "unknown".

(** [flags && flags.includes(name)] *)
Definition flagged (flags : option (list string)) (name : string) : option bool :=
  (fun l => bool_decide (name ∈ l)) <$> flags.

(** [verifyEmail(email)] on the outcome of the check; the usage counter
    goes up by one in both branches. *)
Definition verifyEmail (outcome : CheckOutcome) (usageCount : Z) (email : string)
  : VerificationResult * Z :=
  match outcome with
  | Checked result flags suggested =>
      let parts := JSText.splitOn "@"%char email in
      (Mapped email 1 (mapNeverBounceStatus result)
         {| username := List.hd EmptyString parts;
            domain := parts !! 1%nat;
            valid := negb (String.eqb result "invalid") |}
         {| host_exists := negb (String.eqb result "invalid");
            full_inbox := String.eqb result "catchall";
            catch_all := String.eqb result "catchall";
            deliverable := String.eqb result "valid" || String.eqb result "catchall";
            disabled := String.eqb result "invalid" |}
         suggested
         (String.eqb result "disposable")
         (flagged flags "role_account")
         (flagged flags "free_email_host")
         (flagged flags "has_dns"),
       usageCount + 1)
  | CheckThrows message => (Failed email message 1, usageCount + 1)
  end.

(** What the batch does to the outside, in order. *)
Inductive Event : Type :=
| EvCheck (email : string)
| EvDelay (ms : Z).

(** The [for] loop of [batchVerification] over [emailsToVerify]:
    [verifyEmail] does not throw, so every email is followed by the
    delay of 200 ms. *)
Fixpoint verifyAll (check : string -> CheckOutcome) (usageCount : Z)
  (emailsToVerify : list Candidate)
  : list VerificationResult * Z * list Event :=
  match emailsToVerify with
  | [] => ([], usageCount, [])
  | emailData :: rest =>
      let '(result, usage1) :=
        verifyEmail (check (email emailData)) usageCount (email emailData) in
      let '(results, usage2, events) := verifyAll check usage1 rest in
      (result :: results, usage2,
       EvCheck (email emailData) :: EvDelay 200 :: events)
  end.

(** [batchVerification(emailsWithConfidence, maxEmails)] *)
Definition batchVerification (check : string -> CheckOutcome) (usageCount : Z)
  (emailsWithConfidence : list Candidate) (maxEmails : Z)
  : list VerificationResult * Z * list Event :=
  verifyAll check usageCount (Discovery.slice0 emailsWithConfidence maxEmails).

(** The body of a request to [/api/smart-verify]: [emailsWithConfidence]
    is [None] when it is missing or not an array, [maxEmails] is [None]
    when it is missing. *)
Record VerifyBody : Type := mkVerifyBody {
  emailsWithConfidence : option (list Candidate);
  maxEmails : option Z
}.

Inductive VerifyAnswer : Type :=
| Rejected (error : string)
| Verified (results : list VerificationResult) (neverbounceUsageCount : Z)
    (message : string).

(** The handler: the answer and the usage counter of the service as it
    is left. *)
Definition smartVerify (check : string -> CheckOutcome) (usageCount : Z)
  (body : VerifyBody) : VerifyAnswer * Z :=
  match emailsWithConfidence body with
  | None => (Rejected "emailsWithConfidence array is required", usageCount)
  | Some emails =>
      let '(results, usage, _) :=
        batchVerification check 0 emails (default 10 (maxEmails body)) in
      (Verified results usage
         ("Verified " +:+ pretty (length results) +:+ " emails using NeverBounce API"),
       usage)
  end.

End Verification.

(** ** Cancelling a session *)

Module Sessions.

Import Discovery.

(** [cancelSession]: the session is found when it is pending or
    processing and its status becomes cancelled; [None] is the 404
    answer. *)
Definition cancelSession (s : Session) : option Session :=
  match status s with
  | s_pending | s_processing =>
      Some {| status := s_cancelled;
              domains := domains s;
              sFormData := sFormData s;
              config := config s;
              totalDomains := totalDomains s;
              processedDomains := processedDomains s;
              currentDomainIndex := currentDomainIndex s;
              totalEmailsDiscovered := totalEmailsDiscovered s |}
  | _ => None
  end.

(** The sessions that come out of a session by requests to process a
    domain and to cancel. *)
Inductive evolves (s0 : Session) : Session -> Prop :=
| ev_here : evolves s0 s0
| ev_process s parallelSave insertMany collection i :
    evolves s0 s ->
    evolves s0 (processDomain parallelSave insertMany s collection i).1.2
| ev_cancel s s' :
    evolves s0 s -> cancelSession s = Some s' -> evolves s0 s'.

(** A domain that has been worked on. *)
Definition settledDomain (d : DomainEntry) : bool :=
  match deStatus d with d_pending => false | _ => true end.

(** The number of settled domains and the sum of the counts of the
    domains. *)
Definition settledCount (s : Session) : Z :=
  Z.of_nat (length (filter (fun d => Is_true (settledDomain d)) (domains s))).

Definition countSum (s : Session) : Z :=
  foldr Z.add 0 (emailsCount <$> domains s).

(** How the counters of a session stand to its domains.  Until the
    session is completed they agree with the domains; the request that
    completes the session may count its domain twice and keeps the
    emails of that domain in the total although the count of the domain
    is reset. *)
Record consistent (s : Session) : Prop := mkConsistent {
  total_is_length : totalDomains s = Z.of_nat (length (domains s));
  processed_near_settled :
    settledCount s <= processedDomains s <= settledCount s + 1;
  discovered_at_least_sum : countSum s <= totalEmailsDiscovered s;
  exact_until_completed :
    status s <> s_completed ->
    processedDomains s = settledCount s /\ totalEmailsDiscovered s = countSum s;
  none_in_progress :
    Forall (fun d => deStatus d <> d_processing) (domains s);
  pending_without_emails :
    Forall (fun d => deStatus d = d_pending -> emailsCount d = 0) (domains s);
  counts_not_negative :
    Forall (fun d => 0 <= emailsCount d) (domains s);
  completed_when_done :
    status s = s_completed <->
    Forall (fun d => Is_true (settledDomain d)) (domains s);
  never_pending_or_failed :
    status s <> s_pending /\ status s <> s_failed
}.

End Sessions.

(** ** Vocabulary of the further properties *)

(** The domain that a request asked for, when the event is a request. *)
Definition fetchedDomain (e : Server.Event) : option string :=
  match e with
  | Server.EvFetch d => Some d
  | Server.EvDelay _ => None
  end.

(** [data] of the iteration of [processMultipleDomains] for a domain. *)
Definition dataFor (formData : Server.FormData) (names : list string)
  (domain : string) (webhookResponse : option (list Permute.JValue))
  : Permute.Data :=
  {| Permute.domain := domain;
     Permute.useCustomNames := String.eqb (Server.fdUseCustomNames formData) "true";
     Permute.selectedCustomNames := names;
     Permute.usePersonalInfo := String.eqb (Server.fdUsePersonalInfo formData) "true";
     Permute.useAdvancedEmails := String.eqb (Server.fdUseAdvancedEmails formData) "true";
     Permute.webhookResponse := webhookResponse |}.

(** The note of the fallback data of a domain. *)
Definition fallbackNote (domain : string) : string :=
  "Fallback data generated for " +:+ domain +:+ " due to API limitations".

(** * Properties *)

(** ** The ranking engine *)

Section RankingFacts.

Context {A : Type} (mail : A -> string) (conf : A -> Z).

Local Notation byConfidence := (descending conf).

Lemma insertByConfidence_perm x l :
  insertByConfidence conf x l ≡ₚ x :: l.
Proof.
  induction l as [|y l IH]; simpl; [done|].
  destruct (conf x <? conf y); [|done].
  rewrite IH. apply perm_swap.
Qed.

Lemma sortByConfidence_perm l : sortByConfidence conf l ≡ₚ l.
Proof.
  induction l as [|x l IH]; simpl; [done|].
  by rewrite insertByConfidence_perm, IH.
Qed.

Lemma insertByConfidence_sorted x l :
  StronglySorted byConfidence l ->
  StronglySorted byConfidence (insertByConfidence conf x l).
Proof.
  induction 1 as [|y l Hl IH Hy]; simpl.
  - repeat constructor.
  - destruct (Z.ltb_spec (conf x) (conf y)) as [Hlt|Hge].
    + constructor; [done|].
      rewrite insertByConfidence_perm. constructor; [|done].
      unfold byConfidence. lia.
    + constructor; [by constructor|].
      constructor; [done|].
      eapply Forall_impl; [exact Hy|]. unfold byConfidence. intros z Hz. lia.
Qed.

Lemma sortByConfidence_sorted l :
  StronglySorted byConfidence (sortByConfidence conf l).
Proof.
  induction l; simpl; [constructor|]. by apply insertByConfidence_sorted.
Qed.

(** A descending array is left as it is by the sort. *)
Lemma sortByConfidence_fixed l :
  StronglySorted byConfidence l -> sortByConfidence conf l = l.
Proof.
  induction 1 as [|x l Hl IH Hx]; simpl; [done|].
  rewrite IH. destruct Hx as [|y l' Hy Hl']; simpl; [done|].
  destruct (Z.ltb_spec (conf x) (conf y)); [|done].
  unfold byConfidence in Hy. lia.
Qed.

Lemma pushUnseen_elem seen l x :
  x ∈ pushUnseen mail seen l -> x ∈ l /\ mail x ∉ seen.
Proof.
  revert seen. induction l as [|y l IH]; simpl; intros seen Hx.
  - by apply elem_of_nil in Hx.
  - destruct (decide (mail y ∈ seen)) as [Hin|Hout].
    + apply IH in Hx as [? ?]. split; [by right|done].
    + apply elem_of_cons in Hx as [->|Hx]; [split; [by left|done]|].
      apply IH in Hx as [? Hnot]. split; [by right|]. set_solver.
Qed.

Lemma pushUnseen_sorted seen l :
  StronglySorted byConfidence l ->
  StronglySorted byConfidence (pushUnseen mail seen l).
Proof.
  intros Hl. revert seen.
  induction Hl as [|y l Hl IH Hy]; simpl; intros seen; [constructor|].
  destruct (decide (mail y ∈ seen)); [apply IH|].
  constructor; [apply IH|].
  apply Forall_forall. intros z Hz.
  apply pushUnseen_elem in Hz as [Hz _].
  by eapply Forall_forall in Hy.
Qed.

Lemma pushUnseen_NoDup seen l : NoDup (mail <$> pushUnseen mail seen l).
Proof.
  revert seen. induction l as [|y l IH]; simpl; intros seen.
  - constructor.
  - destruct (decide (mail y ∈ seen)); [apply IH|].
    rewrite fmap_cons. constructor; [|apply IH].
    intros Hin. apply list_elem_of_fmap in Hin as (z & Heq & Hz).
    apply pushUnseen_elem in Hz as [_ Hz]. set_solver.
Qed.

(** A pass over emails that are distinct and not yet seen pushes all of
    them. *)
Lemma pushUnseen_fixed seen l :
  NoDup (mail <$> l) -> (forall x, x ∈ l -> mail x ∉ seen) ->
  pushUnseen mail seen l = l.
Proof.
  revert seen. induction l as [|y l IH]; intros seen Hnd Hseen; [done|].
  rewrite fmap_cons in Hnd. apply NoDup_cons in Hnd as [Hy Hnd]. simpl.
  destruct (decide (mail y ∈ seen)) as [Hin|Hout].
  - exfalso. apply (Hseen y); [by left|done].
  - f_equal. apply IH; [done|]. intros x Hx.
    assert (mail x ≠ mail y).
    { intros Heq. apply Hy. rewrite <- Heq. apply list_elem_of_fmap. eauto. }
    assert (mail x ∉ seen) by (apply Hseen; by right).
    set_solver.
Qed.

(** The email of every element that is not yet seen is the email of a
    pushed element, the first of the array with that email. *)
Lemma pushUnseen_first seen l x :
  x ∈ l -> mail x ∉ seen ->
  exists l1 r l2,
    l = (l1 ++ r :: l2)%list /\ mail r = mail x /\
    (forall z, z ∈ l1 -> mail z ≠ mail x) /\
    r ∈ pushUnseen mail seen l.
Proof.
  revert seen. induction l as [|y l IH]; simpl; intros seen Hx Hseen.
  - by apply elem_of_nil in Hx.
  - destruct (decide (mail y = mail x)) as [Heq|Hne].
    + exists [], y, l. split; [done|]. split; [done|].
      split; [intros z Hz; by apply elem_of_nil in Hz|].
      rewrite decide_False by (by rewrite Heq). by left.
    + apply elem_of_cons in Hx as [->|Hx]; [done|].
      destruct (decide (mail y ∈ seen)) as [Hy|Hy].
      * destruct (IH seen Hx Hseen) as (l1 & r & l2 & -> & Hr & Hl1 & Hin).
        exists (y :: l1), r, l2. split; [done|]. split; [done|].
        split; [|done].
        intros z Hz. apply elem_of_cons in Hz as [->|Hz]; [done|by apply Hl1].
      * destruct (IH ({[mail y]} ∪ seen) Hx) as (l1 & r & l2 & -> & Hr & Hl1 & Hin);
          [set_solver|].
        exists (y :: l1), r, l2. split; [done|]. split; [done|].
        split; [|by right].
        intros z Hz. apply elem_of_cons in Hz as [->|Hz]; [done|by apply Hl1].
Qed.

Lemma rankBy_elem l x : x ∈ rankBy mail conf l -> x ∈ l.
Proof.
  unfold rankBy. intros Hx. apply pushUnseen_elem in Hx as [Hx _].
  by rewrite sortByConfidence_perm in Hx.
Qed.

Lemma rankBy_NoDup l : NoDup (mail <$> rankBy mail conf l).
Proof. apply pushUnseen_NoDup. Qed.

Lemma rankBy_sorted l : StronglySorted byConfidence (rankBy mail conf l).
Proof. apply pushUnseen_sorted, sortByConfidence_sorted. Qed.

Lemma rankBy_fixed l :
  NoDup (mail <$> l) -> StronglySorted byConfidence l -> rankBy mail conf l = l.
Proof.
  intros Hnd Hs. unfold rankBy. rewrite sortByConfidence_fixed by done.
  apply pushUnseen_fixed; [done|]. intros; set_solver.
Qed.

Lemma rankBy_idempotent l :
  rankBy mail conf (rankBy mail conf l) = rankBy mail conf l.
Proof. apply rankBy_fixed; [apply rankBy_NoDup|apply rankBy_sorted]. Qed.

(** Sorting first makes the element kept for an email one of highest
    confidence among those of that email. *)
Lemma rankBy_highest l x :
  x ∈ l ->
  exists r, r ∈ rankBy mail conf l /\ r ∈ l /\ mail r = mail x /\
            conf x <= conf r /\
            (forall r', r' ∈ rankBy mail conf l -> mail r' = mail x -> r' = r).
Proof.
  intros Hx.
  assert (Hxs : x ∈ sortByConfidence conf l) by by rewrite sortByConfidence_perm.
  destruct (pushUnseen_first ∅ _ x Hxs) as (l1 & r & l2 & Hl & Hr & Hl1 & Hin);
    [set_solver|].
  exists r. split; [done|]. split; [by apply rankBy_elem|]. split; [done|].
  split.
  - pose proof (sortByConfidence_sorted l) as Hs. rewrite Hl in Hs, Hxs.
    apply elem_of_app in Hxs as [Hx1|Hx2]; [by apply Hl1 in Hx1|].
    apply elem_of_cons in Hx2 as [->|Hx2]; [lia|].
    apply StronglySorted_app_1_r in Hs. apply StronglySorted_inv in Hs as [_ Hs].
    by eapply Forall_forall in Hs.
  - intros r' Hr' Heq.
    pose proof (rankBy_NoDup l) as Hnd.
    apply list_elem_of_lookup in Hr' as [i Hi].
    apply list_elem_of_lookup in Hin as [j Hj].
    assert (i = j) as ->.
    { eapply NoDup_lookup; [exact Hnd| |];
        rewrite list_lookup_fmap; [by rewrite Hi|].
      unfold rankBy. rewrite Hj. simpl. by rewrite Heq, Hr. }
    unfold rankBy in Hi. congruence.
Qed.

End RankingFacts.

(** The ranking of candidates keeps, for every email of the input, one
    element of highest confidence among those of that email. *)
Lemma rank_highest_confidence_wins (l : list Candidate) (c : Candidate) :
  c ∈ l ->
  exists r, r ∈ rank l /\ r ∈ l /\ email r = email c /\
            confidence c <= confidence r /\
            (forall r', r' ∈ rank l -> email r' = email c -> r' = r).
Proof. apply rankBy_highest. Qed.

(** C2. The output of the ranking is a RankedCandidateSet: its emails are
    pairwise distinct and every element has a confidence at least that of
    the element after it. *)
Theorem rank_is_ranked_set (l : list Candidate) :
  NoDup (email <$> rank l) /\
  Sorted (fun a b => confidence b <= confidence a) (rank l).
Proof.
  split.
  - apply rankBy_NoDup.
  - apply StronglySorted_Sorted. exact (rankBy_sorted email confidence l).
Qed.

(** C8. The ranking is idempotent: ranking a ranked list gives the same
    list, element for element; what the ranking returns is deduplicated
    and sorted by descending confidence, and every sequence that is
    already deduplicated and sorted is a fixed point of the ranking. *)
Theorem rank_idempotent (X : list Candidate) :
  rank (rank X) = rank X /\
  NoDup (email <$> rank X) /\
  Sorted (fun a b => confidence b <= confidence a) (rank X) /\
  (NoDup (email <$> X) ->
   Sorted (fun a b => confidence b <= confidence a) X ->
   rank X = X).
Proof.
  split; [apply rankBy_idempotent|].
  split; [apply rankBy_NoDup|].
  split; [apply StronglySorted_Sorted; exact (rankBy_sorted email confidence X)|].
  intros Hnd Hs. apply rankBy_fixed; [done|].
  apply Sorted_StronglySorted; [|done].
  intros a b c Hab Hbc. unfold descending in *. lia.
Qed.

Lemma rank_idempotent_witness :
  rank Samples.catalogJohnDoe = Samples.catalogJohnDoe.
Proof.
  apply (rank_idempotent Samples.catalogJohnDoe).
  - apply (bool_decide_unpack _). vm_compute. exact I.
  - repeat constructor; simpl; lia.
Defined.

(** ** The pattern generator *)

(** C1. For the name john doe on example.com without advanced patterns the
    generator returns the fifteen candidates of the catalog, in the order
    of the catalog, john.doe@example.com at 95 first; [permute] returns
    the same list when the name comes from the webhook. *)
Theorem catalog_completeness (draw : nat -> nat) :
  Permute.generateRankedEmails "example.com" (Permute.cleanDomain "example.com")
    false draw ["john doe"] = Samples.catalogJohnDoe /\
  length Samples.catalogJohnDoe = 15%nat /\
  head Samples.catalogJohnDoe = Some (mkCandidate "john.doe@example.com" 95) /\
  Permute.permute draw (Samples.johnDoeData "example.com") = Samples.catalogJohnDoe.
Proof. vm_compute. repeat split; reflexivity. Qed.

(** The split of a name never gives an empty array: the test
    [nameParts.length === 0] of the generator is never true. *)
Lemma splitGo_not_nil tok inRun s : JS.splitGo tok inRun s <> [].
Proof.
  revert tok inRun. induction s as [|c s IH]; simpl; intros tok inRun; [done|].
  destruct (JS.isWhiteSpace c); [destruct inRun|]; [apply IH|done|apply IH].
Qed.

Lemma splitWhitespace_not_nil s : JS.splitWhitespace s <> [].
Proof. apply splitGo_not_nil. Qed.

(** [permute] drops a blank value of the webhook object before the
    generator sees it. *)
Lemma keepName_blank s : JS.trim s = "" -> Permute.keepName (Permute.JStr s) = None.
Proof.
  intros Hs. unfold Permute.keepName. rewrite Hs. simpl.
  by destruct (String.eqb s "null").
Qed.

(** C6. A name that is empty after trimming gives no candidate and no
    error: [permute] skips it before the generation, its result is the
    one of the names without it. *)
Theorem blank_names_dropped (draw : nat -> nat) (d : Permute.Data)
  (before after : list Permute.JValue) (s : string) :
  JS.trim s = "" ->
  Permute.permute draw
    (withWebhook d (Some (before ++ Permute.JStr s :: after)%list)) =
  Permute.permute draw (withWebhook d (Some (before ++ after)%list)).
Proof.
  intros Hs. unfold Permute.permute, Permute.allEmails, Permute.webhookNamesOf.
  cbn [withWebhook Permute.usePersonalInfo Permute.webhookResponse].
  assert (Hnames : omap Permute.keepName (before ++ Permute.JStr s :: after)%list =
                   omap Permute.keepName (before ++ after)%list).
  { rewrite !omap_app. f_equal. change (Permute.JStr s :: after) with
      ([Permute.JStr s] ++ after)%list. rewrite omap_app.
    cbn [omap list_omap]. by rewrite (keepName_blank s Hs). }
  by rewrite Hnames.
Qed.

Lemma blank_names_dropped_witness :
  Permute.permute Samples.noDraw
    (withWebhook (Samples.johnDoeData "example.com")
       (Some [Permute.JStr "John Doe"; Permute.JStr "   "; Permute.JNull])) =
  Permute.permute Samples.noDraw
    (withWebhook (Samples.johnDoeData "example.com")
       (Some [Permute.JStr "John Doe"; Permute.JNull])).
Proof.
  exact (blank_names_dropped Samples.noDraw (Samples.johnDoeData "example.com")
           [Permute.JStr "John Doe"] [Permute.JNull] "   " eq_refl).
Defined.

(** C5. On a domain given as a URL the medium and lower tiers carry the
    domain as supplied, not the cleaned one, and a custom name keeps its
    capitals. *)
Theorem raw_domain_in_lower_tiers :
  Permute.cleanDomain "https://www.example.com/" = "example.com" /\
  Permute.permute Samples.noDraw (Samples.johnDoeData "https://www.example.com/") =
    [ mkCandidate "john.doe@example.com" 95;
      mkCandidate "john@example.com" 90;
      mkCandidate "johndoe@example.com" 85;
      mkCandidate "jdoe@example.com" 80;
      mkCandidate "doe@example.com" 75;
      mkCandidate "john-doe@https://www.example.com/" 70;
      mkCandidate "john_doe@https://www.example.com/" 65;
      mkCandidate "j.doe@https://www.example.com/" 60;
      mkCandidate "jd@https://www.example.com/" 55;
      mkCandidate "johnj@https://www.example.com/" 50;
      mkCandidate "j-doe@https://www.example.com/" 45;
      mkCandidate "j_doe@https://www.example.com/" 40;
      mkCandidate "johnd@https://www.example.com/" 35;
      mkCandidate "doej@https://www.example.com/" 30;
      mkCandidate "j.j@https://www.example.com/" 25 ] /\
  filter (fun c => isCleanCandidate "example.com" c = true)
    (Permute.permute Samples.noDraw (Samples.johnDoeData "https://www.example.com/")) =
    [ mkCandidate "john.doe@example.com" 95;
      mkCandidate "john@example.com" 90;
      mkCandidate "johndoe@example.com" 85;
      mkCandidate "jdoe@example.com" 80;
      mkCandidate "doe@example.com" 75 ] /\
  Permute.permute Samples.noDraw (Samples.customOnlyData ["JDoe"]) =
    [ mkCandidate "JDoe@example.com" 95 ] /\
  isCleanCandidate "example.com" (mkCandidate "JDoe@example.com" 95) = false.
Proof. vm_compute. repeat split; reflexivity. Qed.

(** C7, as stated, fails on the pattern generator: a name of one token is
    its own last name and goes through the whole catalog. *)
Lemma single_token_full_catalog :
  Permute.generateRankedEmails "example.com" "example.com" false Samples.noDraw ["john"]
  <> [ mkCandidate "john@example.com" 60 ].
Proof. vm_compute. discriminate. Qed.

(** ** The session based generator *)

(** C7, amended. With personal information as the only source, a form
    without both names gives the reduced set: the first name at 60 when it
    is there, the last name at 55 when it is there. *)
Theorem partial_name_reduced_set (fd : Discovery.FormData) (domain : string) :
  Discovery.usePersonalInfo fd = true ->
  Discovery.useNickName fd && JS.truthy (Discovery.nickName fd) = false ->
  Discovery.useCustomNames fd && JS.truthy (Discovery.customName fd) = false ->
  Discovery.selectedCustomNames fd = [] ->
  Discovery.useAdvancedEmails fd = false ->
  JS.truthy (Discovery.firstName fd) && JS.truthy (Discovery.lastName fd) = false ->
  Discovery.generateEmails fd domain =
    (Discovery.when (JS.truthy (Discovery.firstName fd))
       [ Discovery.mkDiscovered
           (Discovery.at_ (JS.toLowerCase (Discovery.firstName fd)) domain)
           60 Discovery.personal_info ]
     ++ Discovery.when (JS.truthy (Discovery.lastName fd))
          [ Discovery.mkDiscovered
              (Discovery.at_ (JS.toLowerCase (Discovery.lastName fd)) domain)
              55 Discovery.personal_info ])%list.
Proof.
  intros Hp Hn Hc Hs Ha Hfl.
  unfold Discovery.generateEmails, Discovery.pushed.
  rewrite Hp, Hn, Hc, Hs, Ha, Hfl.
  destruct (JS.truthy (Discovery.firstName fd)), (JS.truthy (Discovery.lastName fd));
    try discriminate; rewrite ?andb_false_r; simpl;
    unfold filterFirstIndex; simpl; rewrite ?String.eqb_refl; simpl;
    rewrite ?decide_True by done; reflexivity.
Qed.

Lemma partial_name_reduced_set_witness :
  Discovery.generateEmails Samples.onlyFirst "example.com" =
    [ Discovery.mkDiscovered "john@example.com" 60 Discovery.personal_info ].
Proof.
  exact (partial_name_reduced_set Samples.onlyFirst "example.com"
           eq_refl eq_refl eq_refl eq_refl eq_refl eq_refl).
Defined.

(** C3. [generateEmails] removes duplicates before it sorts: of the two
    candidates john@example.com, pushed at 60 for the first name and at 70
    for the nickname, the one at 60 is kept. *)
Theorem generateEmails_keeps_first_pushed :
  Discovery.pushed Samples.firstAsNick "example.com" =
    [ Discovery.mkDiscovered "john@example.com" 60 Discovery.personal_info;
      Discovery.mkDiscovered "john@example.com" 70 Discovery.nickname ] /\
  Discovery.generateEmails Samples.firstAsNick "example.com" =
    [ Discovery.mkDiscovered "john@example.com" 60 Discovery.personal_info ].
Proof. vm_compute. split; reflexivity. Qed.

(** ** The multi-domain loop *)

Section LoopFacts.

Import Server.

Variable formData : FormData.
Variable resolve : string -> FetchOutcome.
Variable draw : nat -> nat -> nat.

Local Notation settled := (settled formData resolve).

Lemma iteration_spec n i d st :
  exists r,
    results (iteration formData resolve draw n i d st) = (results st ++ [r])%list /\
    allCombinedEmails (iteration formData resolve draw n i d st) =
      (allCombinedEmails st ++ drEmails r)%list /\
    drDomain r = d /\ settled r.
Proof.
  unfold iteration, settled.
  destruct (parseSelectedCustomNames (fdSelectedCustomNames formData));
    eexists; simpl; repeat split; by rewrite ?app_nil_r.
Qed.

Lemma loopFrom_spec n i rest st :
  exists rs,
    results (loopFrom formData resolve draw n i rest st) = (results st ++ rs)%list /\
    allCombinedEmails (loopFrom formData resolve draw n i rest st) =
      (allCombinedEmails st ++ concat (drEmails <$> rs))%list /\
    drDomain <$> rs = rest /\ Forall settled rs.
Proof.
  revert i st. induction rest as [|d rest IH]; intros i st; simpl.
  - exists []. by rewrite !app_nil_r.
  - destruct (iteration_spec n i d st) as (r & Hr & Hc & Hd & Hs).
    destruct (IH (S i) (iteration formData resolve draw n i d st))
      as (rs & Hrs & Hcs & Hds & Hss).
    exists (r :: rs). rewrite Hrs, Hcs, Hr, Hc, <- !app_assoc.
    split; [done|]. split; [done|]. split; [|by constructor].
    rewrite fmap_cons. by rewrite Hd, Hds.
Qed.

(** When the generation succeeds, a delay follows every domain but the
    last. *)
Lemma loopFrom_trace_completed names n i rest st :
  parseSelectedCustomNames (fdSelectedCustomNames formData) = inr names ->
  n = (i + length rest)%nat ->
  trace (loopFrom formData resolve draw n i rest st) =
    (trace st ++ spacedFetches rest)%list.
Proof.
  intros Hp. revert i st. induction rest as [|d rest IH]; intros i st Hn.
  - simpl. by rewrite app_nil_r.
  - cbn [loopFrom]. rewrite IH by (simpl in Hn; lia).
    unfold iteration. rewrite Hp. cbn [trace]. rewrite <- !app_assoc.
    f_equal. destruct rest as [|d' rest]; simpl in *.
    + replace (i <? n - 1)%nat with false by (symmetry; apply Nat.ltb_ge; lia).
      done.
    + replace (i <? n - 1)%nat with true by (symmetry; apply Nat.ltb_lt; lia).
      done.
Qed.

(** When it throws, the requests follow one another without a delay. *)
Lemma loopFrom_trace_error message n i rest st :
  parseSelectedCustomNames (fdSelectedCustomNames formData) = inl message ->
  trace (loopFrom formData resolve draw n i rest st) =
    (trace st ++ (EvFetch <$> rest))%list.
Proof.
  intros Hp. revert i st. induction rest as [|d rest IH]; intros i st.
  - simpl. by rewrite app_nil_r.
  - cbn [loopFrom]. rewrite IH. unfold iteration. rewrite Hp. cbn [trace].
    by rewrite <- app_assoc.
Qed.

End LoopFacts.

(** On a batch whose custom names parse, the requests are issued one
    domain after the other with the delay of 1000 ms between two of
    them and none after the last. *)
Lemma delays_between_completed_domains formData resolve draw names domains :
  Server.parseSelectedCustomNames (Server.fdSelectedCustomNames formData) = inr names ->
  (Server.processDomains formData resolve draw domains).2 = spacedFetches domains.
Proof.
  intros Hp. unfold Server.processDomains, Server.runLoop. simpl.
  by rewrite (loopFrom_trace_completed _ _ _ names).
Qed.

(** C9. When the custom names of the form do not parse, the three
    domains are requested one after the other without any delay: the
    delay stands in the [try] block, after the generation that throws. *)
Theorem no_delay_after_failed_domain :
  Server.processMultipleDomains Samples.noHost Samples.noHost Samples.failsForBad
    Samples.noDraws Samples.brokenNamesForm ["a.com"; "b.com"; "c.com"] =
  ({| Server.domainResults :=
        [ Server.mkDomainResult "a.com" [] None Server.error
            (Some "Unexpected token o in JSON at position 1");
          Server.mkDomainResult "b.com" [] None Server.error
            (Some "Unexpected token o in JSON at position 1");
          Server.mkDomainResult "c.com" [] None Server.error
            (Some "Unexpected token o in JSON at position 1") ];
      Server.globalEmails := [] |},
   [ Server.EvFetch "a.com"; Server.EvFetch "b.com"; Server.EvFetch "c.com" ]) /\
  (Server.processMultipleDomains Samples.noHost Samples.noHost Samples.failsForBad
     Samples.noDraws Samples.plainForm ["a.com"; "b.com"; "c.com"]).2 =
  [ Server.EvFetch "a.com"; Server.EvDelay 1000; Server.EvFetch "b.com";
    Server.EvDelay 1000; Server.EvFetch "c.com" ].
Proof. vm_compute. split; reflexivity. Qed.

(** C4, as stated, fails: when the request for bad.com throws, the loop
    goes on with the fallback data and bad.com is completed. *)
Lemma partial_failure_not_as_stated :
  ~ partialFailureAsStated
      (Server.processMultipleDomains Samples.noHost Samples.noHost
         Samples.failsForBad Samples.noDraws Samples.plainForm
         ["good.com"; "bad.com"]).1.
Proof.
  intros (good & bad & Hres & _ & _ & _ & Hst & _).
  vm_compute in Hres. injection Hres as _ <-. discriminate Hst.
Qed.

(** C4, amended. The batch is never cut short: there is one result for
    each domain, in the order of the domains; a failure of the name
    resolution does not make a domain an error, the domain is completed
    with the response that the inner handler left (the fallback data when
    the request throws); a domain is an error, with the message and no
    candidates, when the generation throws; the global set is the ranking
    of the candidates of all results. *)
Theorem batch_survives_failures
  (urlHostname regexHost : string -> option string)
  (resolve : string -> Server.FetchOutcome) (draw : nat -> nat -> nat)
  (formData : Server.FormData) (domainsFromFile : list string) :
  let b := (Server.processMultipleDomains urlHostname regexHost resolve draw
              formData domainsFromFile).1 in
  Server.drDomain <$> Server.domainResults b =
    Server.uniqueDomains urlHostname regexHost formData domainsFromFile /\
  Forall (settled formData resolve) (Server.domainResults b) /\
  Server.globalEmails b = rank (concat (Server.drEmails <$> Server.domainResults b)).
Proof.
  unfold Server.processMultipleDomains, Server.processDomains, Server.runLoop. simpl.
  destruct (loopFrom_spec formData resolve draw
              (length (Server.uniqueDomains urlHostname regexHost formData domainsFromFile))
              0 (Server.uniqueDomains urlHostname regexHost formData domainsFromFile)
              (Server.mkLoopState [] [] [])) as (rs & -> & -> & Hd & Hs).
  simpl. by repeat split.
Qed.

(** ** Sessions: threshold and cap *)

Section SessionFacts.

Import Discovery.

(** A non-negative [end] makes [slice(0, end)] the first [end]
    elements. *)
Lemma slice0_take {A : Type} (l : list A) (e : Z) :
  0 <= e -> slice0 l e = take (Z.to_nat e) l.
Proof.
  intros He. unfold slice0.
  destruct (Z.ltb_spec e 0) as [?|_]; [lia|].
  destruct (Z.le_gt_cases e (Z.of_nat (length l))) as [Hle|Hgt].
  - by rewrite Z.min_l.
  - rewrite Z.min_r by lia. rewrite Nat2Z.id.
    rewrite !take_ge; [done|lia|lia].
Qed.

(** The configuration that [startDiscovery] stores: the values of the
    request or the defaults, within the bounds of the validators. *)
Lemma startDiscovery_config req s :
  startDiscovery req = Some s ->
  sFormData s = reqFormData req /\
  maxEmailsPerDomain (config s) = orDefault (rawMaxEmailsPerDomain (reqConfig req)) 100 /\
  confidenceThreshold (config s) = orDefault (rawConfidenceThreshold (reqConfig req)) 25 /\
  1 <= maxEmailsPerDomain (config s) <= 1000 /\
  0 <= confidenceThreshold (config s) <= 100.
Proof.
  unfold startDiscovery, validConfig, optionalInt, orDefault, numberOf.
  destruct (reqConfig req) as [[[m|m]|] [[t|t]|]]; simpl;
    repeat match goal with
           | |- context [?a <=? ?b] => destruct (Z.leb_spec a b); simpl
           | |- context [?a =? ?b] => destruct (Z.eqb_spec a b); simpl
           end;
    destruct (reqDomains req); intros [= <-]; simpl; repeat split; lia.
Qed.

Lemma completeDomain_keeps parallelSave s i count err :
  config (completeDomain parallelSave s i count err).1 = config s /\
  sFormData (completeDomain parallelSave s i count err).1 = sFormData s.
Proof. unfold completeDomain. by destruct (domains s !! i). Qed.

(** What a request does on a pending domain of a session in processing:
    the answer, the session and the collection. *)
Lemma processDomain_pending parallelSave insertMany s collection i d :
  status s = s_processing ->
  domains s !! i = Some d ->
  deStatus d = d_pending ->
  let limited := limitedEmails s (deDomain d) in
  let docs := emailDocuments (deDomain d) limited in
  let count := Z.of_nat (length limited) in
  let final := totalDomains s <=? processedDomains s + 1 in
  processDomain parallelSave insertMany s collection i =
  match docs, insertMany with
  | _ :: _, Some message =>
      (ServerError (if final then parallelSave else message),
       settleAt s i (failedEntry (deDomain d) message)
         (processedDomains s + 1) (totalEmailsDiscovered s),
       collection)
  | _, _ =>
      if final
      then (ServerError parallelSave,
            settleAt s i (failedEntry (deDomain d) parallelSave)
              (processedDomains s + 2) (totalEmailsDiscovered s + count),
            (collection ++ docs)%list)
      else (Processed (deDomain d) count limited,
            settleAt s i (mkDomainEntry (deDomain d) d_completed count None)
              (processedDomains s + 1) (totalEmailsDiscovered s + count),
            (collection ++ docs)%list)
  end.
Proof.
  intros Hst Hd Hpend limited docs count final.
  assert (Hi : (i < length (domains s))%nat) by (by eapply lookup_lt_Some).
  assert (Hfail : forall message,
    failDomain parallelSave
      {| status := status s;
         domains := <[ i := mkDomainEntry (deDomain d) d_processing
                              (emailsCount d) (errorMessage d) ]> (domains s);
         sFormData := sFormData s; config := config s;
         totalDomains := totalDomains s;
         processedDomains := processedDomains s;
         currentDomainIndex := currentDomainIndex s;
         totalEmailsDiscovered := totalEmailsDiscovered s |} i message collection =
    (ServerError (if final then parallelSave else message),
     settleAt s i (failedEntry (deDomain d) message)
       (processedDomains s + 1) (totalEmailsDiscovered s),
     collection)).
  { intros message. unfold failDomain, completeDomain, settleAt, failedEntry.
    cbn [domains processedDomains totalDomains status sFormData config
         totalEmailsDiscovered deDomain].
    rewrite list_lookup_insert_eq by done. cbn [deDomain].
    rewrite list_insert_insert_eq, Z.add_0_r. fold final.
    by destruct final. }
  unfold processDomain. rewrite Hst, Hd, Hpend. cbv zeta.
  fold limited. fold docs. fold count.
  assert (Hok :
    match completeDomain parallelSave
      {| status := s_processing;
         domains := <[ i := mkDomainEntry (deDomain d) d_processing
                              (emailsCount d) (errorMessage d) ]> (domains s);
         sFormData := sFormData s; config := config s;
         totalDomains := totalDomains s;
         processedDomains := processedDomains s;
         currentDomainIndex := currentDomainIndex s;
         totalEmailsDiscovered := totalEmailsDiscovered s |} i count None with
    | (s', None) =>
        (Processed (deDomain d) count limited, s', (collection ++ docs)%list)
    | (s', Some message) =>
        failDomain parallelSave s' i message (collection ++ docs)%list
    end =
    if final
    then (ServerError parallelSave,
          settleAt s i (failedEntry (deDomain d) parallelSave)
            (processedDomains s + 2) (totalEmailsDiscovered s + count),
          (collection ++ docs)%list)
    else (Processed (deDomain d) count limited,
          settleAt s i (mkDomainEntry (deDomain d) d_completed count None)
            (processedDomains s + 1) (totalEmailsDiscovered s + count),
          (collection ++ docs)%list)).
  { unfold completeDomain, settleAt.
    cbn [domains processedDomains totalDomains status sFormData config
         totalEmailsDiscovered deDomain].
    rewrite list_lookup_insert_eq by done. cbn [deDomain].
    rewrite list_insert_insert_eq. fold final. rewrite Hst.
    destruct final eqn:Hfinal; [|done].
    unfold failDomain, completeDomain, failedEntry.
    cbn [domains processedDomains totalDomains status sFormData config
         totalEmailsDiscovered deDomain].
    rewrite list_lookup_insert_eq by done. cbn [deDomain].
    rewrite list_insert_insert_eq, Z.add_0_r.
    apply Z.leb_le in Hfinal.
    destruct (Z.leb_spec (totalDomains s) (processedDomains s + 1 + 1)); [|lia].
    do 3 f_equal. lia. }
  rewrite Hst in Hfail.
  destruct docs as [|doc docs'], insertMany as [message|];
    first [ exact Hok | apply Hfail ].
Qed.

(** What a request does otherwise: it is refused and changes nothing. *)
Lemma processDomain_refused parallelSave insertMany s collection i :
  (forall d, status s = s_processing -> domains s !! i = Some d ->
             deStatus d <> d_pending) ->
  exists error,
    processDomain parallelSave insertMany s collection i =
    (BadRequest error, s, collection).
Proof.
  intros Hno. unfold processDomain.
  destruct (status s) eqn:Hst; try by eexists.
  destruct (domains s !! i) as [d|] eqn:Hd; [|by eexists].
  specialize (Hno d eq_refl eq_refl).
  destruct (deStatus d); first [done | by eexists].
Qed.

Lemma processDomain_keeps parallelSave insertMany s collection i :
  config (processDomain parallelSave insertMany s collection i).1.2 = config s /\
  sFormData (processDomain parallelSave insertMany s collection i).1.2 = sFormData s.
Proof.
  destruct (status s) eqn:Hst;
    try (unfold processDomain; by rewrite Hst).
  destruct (domains s !! i) as [d|] eqn:Hd;
    [|unfold processDomain; by rewrite Hst, Hd].
  destruct (deStatus d) eqn:Hp;
    try (unfold processDomain; by rewrite Hst, Hd, Hp).
  rewrite (processDomain_pending _ _ _ _ _ _ Hst Hd Hp). cbv zeta.
  destruct (emailDocuments _ _), insertMany, (_ <=? _); done.
Qed.



End SessionFacts.




(** The request that settles the last domain of the sample session
    stores the candidates and answers with the rejected save. *)
Example processDomain_last_domain :
  Discovery.processDomain Samples.parallelSave None
    (Discovery.processDomain Samples.parallelSave None
       Samples.startedJohnDoe [] 0).1.2 [] 1 =
  (Discovery.ServerError Samples.parallelSave,
   Discovery.mkSession Discovery.s_completed
     [ Discovery.mkDomainEntry "example.com" Discovery.d_completed 3 None;
       Discovery.mkDomainEntry "example.org" Discovery.d_error 0
         (Some Samples.parallelSave) ]
     Samples.johnDoeForm (Discovery.mkConfig 3 60) 2 3 2 6,
   [ Discovery.mkEmailDocument "john.doe@example.org" "example.org" 85
       Discovery.personal_info;
     Discovery.mkEmailDocument "johndoe@example.org" "example.org" 80
       Discovery.personal_info;
     Discovery.mkEmailDocument "jdoe@example.org" "example.org" 75
       Discovery.personal_info ]).
Proof. vm_compute. reflexivity. Qed.

(** * Further properties *)

(** ** Strings *)

Lemma string_app_cons c (s t : string) : String c s +:+ t = String c (s +:+ t).
Proof. reflexivity. Qed.

Lemma string_app_nil_r (s : string) : s +:+ "" = s.
Proof. induction s as [|c s IH]; [done|]. by rewrite string_app_cons, IH. Qed.

Lemma string_app_assoc (s t u : string) : (s +:+ t) +:+ u = s +:+ (t +:+ u).
Proof. induction s as [|c s IH]; [done|]. by rewrite !string_app_cons, IH. Qed.

Lemma lowerChar_idempotent c : JS.lowerChar (JS.lowerChar c) = JS.lowerChar c.
Proof. destruct c as [[] [] [] [] [] [] [] []]; vm_compute; reflexivity. Qed.

Lemma toLowerCase_idempotent s : JS.toLowerCase (JS.toLowerCase s) = JS.toLowerCase s.
Proof.
  induction s as [|c s IH]; simpl; [done|].
  by rewrite lowerChar_idempotent, IH.
Qed.

Lemma toLowerCase_app s t :
  JS.toLowerCase (s +:+ t) = JS.toLowerCase s +:+ JS.toLowerCase t.
Proof.
  induction s as [|c s IH]; [done|].
  rewrite string_app_cons. simpl. by rewrite IH.
Qed.

Lemma rev_onto_app s acc : JS.rev_onto s acc = JS.reverse s +:+ acc.
Proof.
  unfold JS.reverse. revert acc. induction s as [|c s IH]; intros acc; simpl; [done|].
  rewrite (IH (String c acc)), (IH (String c "")). by rewrite string_app_assoc.
Qed.

Lemma reverse_cons c s : JS.reverse (String c s) = JS.reverse s +:+ String c "".
Proof. unfold JS.reverse at 1. simpl. apply rev_onto_app. Qed.

Lemma reverse_app s t : JS.reverse (s +:+ t) = JS.reverse t +:+ JS.reverse s.
Proof.
  induction s as [|c s IH].
  - change (JS.reverse "") with "". by rewrite string_app_nil_r.
  - by rewrite string_app_cons, !reverse_cons, IH, string_app_assoc.
Qed.

Lemma reverse_involutive s : JS.reverse (JS.reverse s) = s.
Proof.
  induction s as [|c s IH]; [done|].
  by rewrite reverse_cons, reverse_app, IH.
Qed.

(** The first code unit of a lower-case text is lower-case. *)
Lemma charAt0_lower s :
  JS.toLowerCase (JS.charAt0 (JS.toLowerCase s)) = JS.charAt0 (JS.toLowerCase s).
Proof. destruct s as [|c s]; simpl; [done|]. by rewrite lowerChar_idempotent. Qed.

Lemma index0_lower s :
  JS.truthy s = true ->
  JS.toLowerCase (JS.index0 (JS.toLowerCase s)) = JS.index0 (JS.toLowerCase s).
Proof. destruct s as [|c s]; simpl; [done|]. by rewrite lowerChar_idempotent. Qed.

(** ** The ranking keeps a candidate of top confidence *)

Lemma rank_keeps_top (l : list Candidate) (c : Candidate) :
  c ∈ l ->
  (forall x, x ∈ l -> email x = email c -> confidence x <= confidence c) ->
  c ∈ rank l.
Proof.
  intros Hc Htop.
  destruct (rank_highest_confidence_wins l c Hc) as (r & Hr & Hrl & Hmail & Hle & _).
  assert (confidence r = confidence c) by (specialize (Htop r Hrl Hmail); lia).
  replace c with r; [done|]. destruct r, c; simpl in *; congruence.
Qed.

Lemma rank_elem (l : list Candidate) (c : Candidate) : c ∈ rank l -> c ∈ l.
Proof. apply rankBy_elem. Qed.

(** ** The patterns of one name *)

Lemma pretty_draw_lower (r : nat) :
  JS.toLowerCase (pretty (r mod 100)%nat) = pretty (r mod 100)%nat.
Proof.
  assert (Hall : forallb (fun k => String.eqb (JS.toLowerCase (pretty k)) (pretty k))
                   (seq 0 100) = true) by (vm_compute; reflexivity).
  rewrite forallb_forall in Hall.
  apply String.eqb_eq, Hall, in_seq.
  pose proof (Nat.mod_upper_bound r 100). lia.
Qed.

Ltac lower_case :=
  rewrite ?toLowerCase_app, ?toLowerCase_idempotent, ?charAt0_lower,
    ?pretty_draw_lower; reflexivity.

(** Every pattern of a name is a lower-case local part joined with the
    cleaned domain in the high tier (confidence 75 and more) and with the
    domain as supplied below; its confidence lies between 5 and 95, and
    between 25 and 95 without the advanced patterns. *)
Lemma personEmails_shape domain clean adv draw i fullName c :
  c ∈ Permute.personEmails domain clean adv draw i fullName ->
  (exists loc, JS.toLowerCase loc = loc /\
     email c = Permute.at_ loc (if 75 <=? confidence c then clean else domain)) /\
  5 <= confidence c <= 95 /\ (adv = false -> 25 <= confidence c).
Proof.
  unfold Permute.personEmails.
  destruct (JS.splitWhitespace (JS.trim fullName)) as [|first rest]; [by intros ?%elem_of_nil|].
  set (parts := first :: rest).
  unfold Permute.highConfidence, Permute.mediumConfidence, Permute.lowerConfidence,
    Permute.advancedPatterns.
  intros Hc.
  destruct adv;
    repeat (apply elem_of_app in Hc as [Hc|Hc]);
    repeat (apply elem_of_cons in Hc as [->|Hc]); try (by apply elem_of_nil in Hc);
    (split; [eexists; split; [|reflexivity]; lower_case | simpl; split; [lia|intros; try discriminate; lia]]).
Qed.

Lemma allEmailPatterns_elem domain clean adv draw names c :
  c ∈ Permute.allEmailPatterns domain clean adv draw names <->
  exists i fullName, names !! i = Some fullName /\
                     c ∈ Permute.personEmails domain clean adv draw i fullName.
Proof.
  unfold Permute.allEmailPatterns. rewrite list_elem_of_In, in_concat. split.
  - intros (l & Hl & Hc). apply list_elem_of_In, elem_of_lookup_imap in Hl as (i & y & -> & Hy).
    exists i, y. by rewrite list_elem_of_In.
  - intros (i & y & Hy & Hc). eexists. split; [|by apply list_elem_of_In].
    apply list_elem_of_In. by eapply elem_of_lookup_imap_2.
Qed.

Lemma allEmails_elem draw d c :
  c ∈ Permute.allEmails draw d <->
  c ∈ Permute.generateRankedEmails (Permute.domain d) (Permute.cleanDomain (Permute.domain d))
        (Permute.useAdvancedEmails d) draw (Permute.webhookNamesOf d) \/
  (Permute.useCustomNames d = true /\
   c ∈ Permute.customEmails (Permute.cleanDomain (Permute.domain d))
         (Permute.selectedCustomNames d)).
Proof.
  unfold Permute.allEmails. rewrite elem_of_app.
  destruct (Permute.webhookNamesOf d) eqn:Hn, (Permute.useCustomNames d);
    split; intros [H|H]; try (by apply elem_of_nil in H);
    try (by left); try (by right); try tauto; try (by destruct H).
  all: try (vm_compute in H; by apply elem_of_nil in H).
Qed.

Lemma generated_bounds domain clean adv draw names c :
  c ∈ Permute.generateRankedEmails domain clean adv draw names ->
  5 <= confidence c <= 95 /\ (adv = false -> 25 <= confidence c).
Proof.
  intros Hc%rank_elem. apply allEmailPatterns_elem in Hc as (i & n & _ & Hc).
  by apply personEmails_shape in Hc as (_ & ? & ?).
Qed.

Lemma allEmails_bounds draw d c :
  c ∈ Permute.allEmails draw d ->
  5 <= confidence c <= 95 /\ (Permute.useAdvancedEmails d = false -> 25 <= confidence c).
Proof.
  intros [Hc|[_ Hc]]%allEmails_elem.
  - by apply generated_bounds in Hc.
  - unfold Permute.customEmails in Hc. apply list_elem_of_fmap in Hc as (n & -> & _).
    simpl. lia.
Qed.

(** X1. What [permute] returns is a ranked set whose confidences lie
    between 5 and 95, and between 25 and 95 when the advanced patterns
    are off. *)
Theorem permute_ranked_and_bounded (draw : nat -> nat) (d : Permute.Data) :
  NoDup (email <$> Permute.permute draw d) /\
  Sorted (fun a b => confidence b <= confidence a) (Permute.permute draw d) /\
  Forall (fun c => 5 <= confidence c <= 95 /\
                   (Permute.useAdvancedEmails d = false -> 25 <= confidence c))
    (Permute.permute draw d).
Proof.
  split; [apply rankBy_NoDup|]. split.
  - apply StronglySorted_Sorted. exact (rankBy_sorted email confidence _).
  - apply Forall_forall. intros c Hc%rank_elem. by apply allEmails_bounds in Hc.
Qed.

(** X2. Every candidate of the generator is a lower-case local part, an
    at sign and a domain: the cleaned domain for the patterns of
    confidence 75 and more, the domain as it was supplied for the
    others. *)
Theorem generated_pattern_shape (domain : string) (adv : bool)
  (draw : nat -> nat) (names : list string) :
  Forall (fun c =>
            exists loc, JS.toLowerCase loc = loc /\
              email c = Permute.at_ loc
                          (if 75 <=? confidence c then Permute.cleanDomain domain
                           else domain))
    (Permute.generateRankedEmails domain (Permute.cleanDomain domain) adv draw names).
Proof.
  apply Forall_forall. intros c Hc%rank_elem.
  apply allEmailPatterns_elem in Hc as (i & n & _ & Hc).
  by apply personEmails_shape in Hc as (? & _).
Qed.

(** X3. With the custom names enabled, every selected custom name is in
    the result of [permute] at confidence 95, joined with the cleaned
    domain, whatever the webhook names and the advanced flag are. *)
Theorem custom_names_at_95 (draw : nat -> nat) (d : Permute.Data) (name : string) :
  Permute.useCustomNames d = true ->
  name ∈ Permute.selectedCustomNames d ->
  mkCandidate (Permute.at_ name (Permute.cleanDomain (Permute.domain d))) 95
    ∈ Permute.permute draw d.
Proof.
  intros Hu Hn. apply rank_keeps_top.
  - apply allEmails_elem. right. split; [done|].
    unfold Permute.customEmails. apply list_elem_of_fmap. by exists name.
  - intros x Hx _. apply allEmails_bounds in Hx. simpl. lia.
Qed.

Lemma custom_names_at_95_witness :
  mkCandidate "jdoe@example.com" 95
    ∈ Permute.permute Samples.noDraw (Samples.customOnlyData ["jdoe"]).
Proof.
  exact (custom_names_at_95 Samples.noDraw (Samples.customOnlyData ["jdoe"]) "jdoe"
           eq_refl (list_elem_of_here "jdoe" [])).
Defined.

Lemma first_last_pattern_kept (draw : nat -> nat) (d : Permute.Data)
  (fullName first : string) (rest : list string) :
  fullName ∈ Permute.webhookNamesOf d ->
  JS.splitWhitespace (JS.trim fullName) = first :: rest ->
  mkCandidate
    (Permute.at_ (JS.toLowerCase first +:+ "." +:+ JS.toLowerCase (List.last rest first))
       (Permute.cleanDomain (Permute.domain d))) 95
    ∈ Permute.permute draw d.
Proof.
  intros Hn Hsplit. apply rank_keeps_top.
  - apply allEmails_elem. left. apply rank_keeps_top.
    + apply list_elem_of_lookup in Hn as [i Hi].
      apply allEmailPatterns_elem. exists i, fullName. split; [done|].
      unfold Permute.personEmails. rewrite Hsplit.
      apply elem_of_app. right. apply elem_of_app. left.
      unfold Permute.highConfidence.
      replace (List.last (first :: rest) first) with (List.last rest first)
        by (by destruct rest).
      by left.
    + intros x Hx _. apply allEmailPatterns_elem in Hx as (i & n & _ & Hx).
      apply personEmails_shape in Hx as (_ & ? & _). simpl. lia.
  - intros x Hx _. apply allEmails_bounds in Hx. simpl. lia.
Qed.

(** X4. The first.last pattern of every name that the webhook gave is in
    the result of [permute] at confidence 95 with the cleaned domain. *)
Theorem first_last_at_95 (draw : nat -> nat) (d : Permute.Data)
  (fullName first : string) (rest : list string) :
  fullName ∈ Permute.webhookNamesOf d ->
  JS.splitWhitespace (JS.trim fullName) = first :: rest ->
  mkCandidate
    (Permute.at_ (JS.toLowerCase first +:+ "." +:+ JS.toLowerCase (List.last rest first))
       (Permute.cleanDomain (Permute.domain d))) 95
    ∈ Permute.permute draw d.
Proof. apply first_last_pattern_kept. Qed.

Lemma first_last_at_95_witness :
  mkCandidate "john.doe@example.com" 95
    ∈ Permute.permute Samples.noDraw (Samples.johnDoeData "example.com").
Proof.
  exact (first_last_at_95 Samples.noDraw (Samples.johnDoeData "example.com")
           "John Doe" "John" ["Doe"] (list_elem_of_here "John Doe" []) eq_refl).
Defined.

(** X5. Cleaning gives back a host that was wrapped in a scheme, the
    www prefix and a trailing slash, whatever the host is. *)
Theorem cleanDomain_unwraps (host : string) :
  Permute.cleanDomain ("https://www." +:+ host +:+ "/") = host /\
  Permute.cleanDomain ("http://www." +:+ host +:+ "/") = host /\
  Permute.cleanDomain ("www." +:+ host +:+ "/") = host.
Proof.
  assert (Hslash : forall h, JS.dropTrailingSlash (h +:+ "/") = h).
  { intros h. unfold JS.dropTrailingSlash. rewrite reverse_app.
    change (JS.reverse "/") with "/". rewrite !string_app_cons.
    change ("" +:+ JS.reverse h) with (JS.reverse h). apply reverse_involutive. }
  unfold Permute.cleanDomain. repeat split.
  - change (JS.dropPrefix "www." (JS.dropScheme ("https://www." +:+ host +:+ "/")))
      with (host +:+ "/"). apply Hslash.
  - change (JS.dropPrefix "www." (JS.dropScheme ("http://www." +:+ host +:+ "/")))
      with (host +:+ "/"). apply Hslash.
  - change (JS.dropPrefix "www." (JS.dropScheme ("www." +:+ host +:+ "/")))
      with (host +:+ "/"). apply Hslash.
Qed.

(** ** The batch *)

Lemma rank_emails (l : list Candidate) (e : string) :
  e ∈ email <$> rank l <-> e ∈ email <$> l.
Proof.
  rewrite !list_elem_of_fmap. split.
  - intros (c & -> & Hc). exists c. split; [done|by apply rank_elem].
  - intros (c & -> & Hc).
    destruct (rank_highest_confidence_wins l c Hc) as (r & Hr & _ & Hmail & _).
    by exists r.
Qed.

(** The results of the loop when the custom names parse: one completed
    result for each domain, with the candidates of [permute] on the
    response that the inner handler left. *)
Lemma loopFrom_completed formData resolve draw names n i rest st :
  Server.parseSelectedCustomNames (Server.fdSelectedCustomNames formData) = inr names ->
  Server.results (Server.loopFrom formData resolve draw n i rest st) =
    (Server.results st ++
     imap (fun k d =>
             Server.mkDomainResult d
               (Permute.permute (draw (i + k)%nat)
                  (dataFor formData names d
                     (Server.webhookResponseOf d (resolve d))))
               (Server.webhookResponseOf d (resolve d)) Server.completed None)
       rest)%list.
Proof.
  intros Hp. revert i st. induction rest as [|d rest IH]; intros i st.
  - simpl. by rewrite app_nil_r.
  - cbn [Server.loopFrom]. rewrite IH. unfold Server.iteration. rewrite Hp.
    cbn [Server.results]. rewrite <- app_assoc. f_equal. rewrite imap_cons.
    cbn [app]. rewrite Nat.add_0_r. f_equal. apply imap_ext. intros k x _. simpl.
    by rewrite Nat.add_succ_r.
Qed.

Lemma omap_fetched_spaced domains :
  omap fetchedDomain (spacedFetches domains) = domains.
Proof.
  induction domains as [|d [|d' rest] IH]; [done|done|].
  change (spacedFetches (d :: d' :: rest))
    with (Server.EvFetch d :: Server.EvDelay 1000 :: spacedFetches (d' :: rest)).
  cbn [omap list_omap fetchedDomain]. by rewrite IH.
Qed.

Lemma omap_fetched_all (domains : list string) :
  omap fetchedDomain (Server.EvFetch <$> domains) = domains.
Proof. induction domains as [|d rest IH]; [done|]. cbn. by rewrite IH. Qed.

(** X6. The requests to the name-resolution service are one for each
    entry of the list of domains that the batch runs over, in the order
    of the list, whether the generation succeeds or throws.  The list is
    deduplicated before its entries are cleaned: two entries that clean
    to the same host are both in it, and both are requested. *)
Theorem one_request_per_domain
  (urlHostname regexHost : string -> option string)
  (resolve : string -> Server.FetchOutcome) (draw : nat -> nat -> nat)
  (formData : Server.FormData) (domainsFromFile : list string) :
  omap fetchedDomain
    (Server.processMultipleDomains urlHostname regexHost resolve draw formData
       domainsFromFile).2 =
  Server.uniqueDomains urlHostname regexHost formData domainsFromFile.
Proof.
  unfold Server.processMultipleDomains, Server.processDomains, Server.runLoop. simpl.
  destruct (Server.parseSelectedCustomNames (Server.fdSelectedCustomNames formData))
    as [message|names] eqn:Hp.
  - rewrite (loopFrom_trace_error _ _ _ message) by done. simpl.
    apply omap_fetched_all.
  - rewrite (loopFrom_trace_completed _ _ _ names) by done. simpl.
    apply omap_fetched_spaced.
Qed.

(** Two entries of the file that clean to the same host are requested
    one after the other. *)
Example same_host_requested_twice :
  omap fetchedDomain
    (Server.processMultipleDomains Samples.noHost Samples.noHost
       Samples.failsForBad Samples.noDraws Samples.plainForm
       ["example.com"; "www.example.com"]).2 =
  ["example.com"; "example.com"].
Proof. vm_compute. reflexivity. Qed.

(** X7. The global list of a batch is a ranked set, and its emails are
    the emails of the per-domain results: none is lost and none is
    added. *)
Theorem global_covers_results
  (urlHostname regexHost : string -> option string)
  (resolve : string -> Server.FetchOutcome) (draw : nat -> nat -> nat)
  (formData : Server.FormData) (domainsFromFile : list string) :
  let b := (Server.processMultipleDomains urlHostname regexHost resolve draw
              formData domainsFromFile).1 in
  NoDup (email <$> Server.globalEmails b) /\
  Sorted (fun x y => confidence y <= confidence x) (Server.globalEmails b) /\
  forall e, e ∈ email <$> Server.globalEmails b <->
            exists r, r ∈ Server.domainResults b /\ e ∈ email <$> Server.drEmails r.
Proof.
  unfold Server.processMultipleDomains, Server.processDomains, Server.runLoop.
  cbn [fst Server.globalEmails Server.domainResults].
  split; [apply rankBy_NoDup|]. split.
  { apply StronglySorted_Sorted. exact (rankBy_sorted email confidence _). }
  intros e. rewrite rank_emails.
  destruct (loopFrom_spec formData resolve draw
              (length (Server.uniqueDomains urlHostname regexHost formData domainsFromFile))
              0 (Server.uniqueDomains urlHostname regexHost formData domainsFromFile)
              (Server.mkLoopState [] [] [])) as (rs & -> & -> & _ & _).
  simpl. rewrite list_elem_of_fmap. split.
  - intros (c & -> & Hc). apply list_elem_of_In, in_concat in Hc as (l & Hl & Hc).
    apply list_elem_of_In, list_elem_of_fmap in Hl as (r & -> & Hr).
    exists r. split; [done|]. apply list_elem_of_fmap. exists c.
    split; [done|by apply list_elem_of_In].
  - intros (r & Hr & (c & -> & Hc)%list_elem_of_fmap). exists c. split; [done|].
    apply list_elem_of_In, in_concat. exists (Server.drEmails r).
    split; apply list_elem_of_In; [|done]. apply list_elem_of_fmap. by exists r.
Qed.

(** ** The fallback data *)

Lemma last_cons_nonempty {A : Type} (x : A) (l : list A) (d d' : A) :
  l <> [] -> List.last (x :: l) d = List.last l d'.
Proof.
  revert x. induction l as [|y l IH]; intros x Hl; [done|].
  destruct l as [|z l]; [done|].
  change (List.last (x :: y :: z :: l) d) with (List.last (y :: z :: l) d).
  change (List.last (y :: z :: l) d') with (List.last (z :: l) d').
  rewrite (IH y) by done. done.
Qed.

(** A text that ends with a space and a word splits into pieces of which
    the word is the last. *)
Lemma splitGo_last_word tok inRun s d :
  List.last (JS.splitGo tok inRun (s +:+ " limitations")) d = "limitations".
Proof.
  revert tok inRun. induction s as [|c s IH]; intros tok inRun.
  - destruct inRun; reflexivity.
  - rewrite string_app_cons. cbn [JS.splitGo].
    destruct (JS.isWhiteSpace c); [destruct inRun|]; try apply IH.
    rewrite (last_cons_nonempty _ _ d d) by apply splitGo_not_nil. apply IH.
Qed.

Lemma fallbackNote_trim domain : JS.trim (fallbackNote domain) = fallbackNote domain.
Proof.
  unfold JS.trim. change (JS.trimStart (fallbackNote domain)) with (fallbackNote domain).
  unfold JS.trimEnd, fallbackNote. rewrite !reverse_app.
  change (JS.reverse " due to API limitations") with "snoitatimil IPA ot eud ".
  rewrite !string_app_cons.
  match goal with
  | |- JS.reverse (JS.trimStart ?x) = _ => change (JS.trimStart x) with x
  end.
  rewrite <- !string_app_cons.
  change "snoitatimil IPA ot eud " with (JS.reverse " due to API limitations").
  rewrite <- !reverse_app. apply reverse_involutive.
Qed.

Lemma fallbackNote_split domain :
  exists rest,
    JS.splitWhitespace (JS.trim (fallbackNote domain)) = "Fallback" :: rest /\
    List.last rest "Fallback" = "limitations".
Proof.
  rewrite fallbackNote_trim.
  exists (JS.splitGo "" true
            (("data generated for " +:+ domain +:+ " due to API") +:+ " limitations")).
  split; [|apply splitGo_last_word].
  rewrite !string_app_assoc. reflexivity.
Qed.

Lemma fallback_names domain :
  omap Permute.keepName (Server.generateFallbackData domain) = [fallbackNote domain].
Proof.
  unfold Server.generateFallbackData. cbn [omap list_omap Permute.keepName].
  fold (fallbackNote domain). rewrite fallbackNote_trim. reflexivity.
Qed.

(** X8. When the request for a domain throws, or its content does not
    parse, and the form is not in personal-info mode, the note of the
    fallback data is taken for a name: the domain is completed with the
    candidate fallback.limitations at confidence 95, which also enters
    the global list. *)
Theorem fallback_note_taken_for_a_name
  (urlHostname regexHost : string -> option string)
  (resolve : string -> Server.FetchOutcome) (draw : nat -> nat -> nat)
  (formData : Server.FormData) (domainsFromFile : list string)
  (d : string) (names : list string) :
  Server.parseSelectedCustomNames (Server.fdSelectedCustomNames formData) = inr names ->
  String.eqb (Server.fdUsePersonalInfo formData) "true" = false ->
  d ∈ Server.uniqueDomains urlHostname regexHost formData domainsFromFile ->
  resolve d = Server.FetchThrows \/ resolve d = Server.ContentUnparseable ->
  let b := (Server.processMultipleDomains urlHostname regexHost resolve draw
              formData domainsFromFile).1 in
  let bogus := mkCandidate ("fallback.limitations@" +:+ Permute.cleanDomain d) 95 in
  (exists r, r ∈ Server.domainResults b /\ Server.drDomain r = d /\
             Server.drStatus r = Server.completed /\ bogus ∈ Server.drEmails r) /\
  bogus ∈ Server.globalEmails b.
Proof.
  intros Hp Hinfo Hd Hres b bogus.
  set (domains := Server.uniqueDomains urlHostname regexHost formData domainsFromFile) in *.
  assert (Hresults : Server.domainResults b =
            imap (fun k d =>
                    Server.mkDomainResult d
                      (Permute.permute (draw k)
                         (dataFor formData names d
                            (Server.webhookResponseOf d (resolve d))))
                      (Server.webhookResponseOf d (resolve d)) Server.completed None)
              domains).
  { unfold b, Server.processMultipleDomains, Server.processDomains, Server.runLoop.
    cbn [fst Server.domainResults]. fold domains.
    by rewrite (loopFrom_completed formData resolve draw names). }
  assert (Hglobal : Server.globalEmails b =
            rank (concat (Server.drEmails <$> Server.domainResults b))).
  { unfold b, Server.processMultipleDomains, Server.processDomains, Server.runLoop.
    cbn [fst Server.domainResults Server.globalEmails]. fold domains.
    destruct (loopFrom_spec formData resolve draw (length domains) 0 domains
                (Server.mkLoopState [] [] [])) as (rs & -> & -> & _ & _). done. }
  apply list_elem_of_lookup in Hd as [k Hk].
  set (r := Server.mkDomainResult d
              (Permute.permute (draw k)
                 (dataFor formData names d (Server.webhookResponseOf d (resolve d))))
              (Server.webhookResponseOf d (resolve d)) Server.completed None).
  assert (Hr : r ∈ Server.domainResults b).
  { rewrite Hresults. apply elem_of_lookup_imap. by exists k, d. }
  assert (Hbogus : bogus ∈ Server.drEmails r).
  { unfold r. cbn [Server.drEmails].
    destruct (fallbackNote_split d) as (rest & Hsplit & Hlast).
    pose proof (first_last_pattern_kept (draw k)
                  (dataFor formData names d (Server.webhookResponseOf d (resolve d)))
                  (fallbackNote d) "Fallback" rest) as Hfl.
    rewrite Hlast in Hfl. apply Hfl; [|done].
    unfold Permute.webhookNamesOf, dataFor.
    cbn [Permute.usePersonalInfo Permute.webhookResponse]. rewrite Hinfo.
    destruct Hres as [-> | ->]; cbn [Server.webhookResponseOf];
      rewrite fallback_names; by left. }
  split; [by exists r|].
  rewrite Hglobal. apply rank_keeps_top.
  - apply list_elem_of_In, in_concat. exists (Server.drEmails r).
    split; apply list_elem_of_In; [|done]. apply list_elem_of_fmap. by exists r.
  - intros x Hx _. apply list_elem_of_In, in_concat in Hx as (l & Hl & Hx).
    apply list_elem_of_In, list_elem_of_fmap in Hl as (r' & -> & Hr').
    rewrite Hresults in Hr'. apply elem_of_lookup_imap in Hr' as (k' & d' & -> & _).
    cbn [Server.drEmails] in Hx. apply list_elem_of_In, rank_elem, allEmails_bounds in Hx.
    simpl. lia.
Qed.

Lemma fallback_note_taken_for_a_name_witness :
  let b := (Server.processMultipleDomains Samples.noHost Samples.noHost
              Samples.failsForBad Samples.noDraws Samples.plainForm
              ["good.com"; "bad.com"]).1 in
  let bogus := mkCandidate ("fallback.limitations@" +:+ Permute.cleanDomain "bad.com") 95 in
  (exists r, r ∈ Server.domainResults b /\ Server.drDomain r = "bad.com" /\
             Server.drStatus r = Server.completed /\ bogus ∈ Server.drEmails r) /\
  bogus ∈ Server.globalEmails b.
Proof.
  apply (fallback_note_taken_for_a_name Samples.noHost Samples.noHost
           Samples.failsForBad Samples.noDraws Samples.plainForm
           ["good.com"; "bad.com"] "bad.com" []).
  - reflexivity.
  - reflexivity.
  - vm_compute. apply list_elem_of_further, list_elem_of_here.
  - left. reflexivity.
Defined.

(** ** [generateEmails] *)

Section FirstIndex.

Context {A : Type} (mail : A -> string).

Lemma findIndex_app_unseen x pre l :
  mail x ∉ mail <$> pre ->
  findIndex mail x (pre ++ l)%list = (fun k => (length pre + k)%nat) <$> findIndex mail x l.
Proof.
  induction pre as [|e pre IH]; intros Hx.
  - simpl. by destruct (findIndex mail x l).
  - rewrite fmap_cons, not_elem_of_cons in Hx. destruct Hx as [Hne Hx].
    cbn [app findIndex]. destruct (String.eqb_spec (mail e) (mail x)); [congruence|].
    rewrite IH by done. by destruct (findIndex mail x l).
Qed.

Lemma findIndex_app_seen x pre l :
  mail x ∈ mail <$> pre ->
  exists j, findIndex mail x (pre ++ l)%list = Some j /\ (j < length pre)%nat.
Proof.
  induction pre as [|e pre IH]; intros Hx; [by apply elem_of_nil in Hx|].
  cbn [app findIndex]. destruct (String.eqb_spec (mail e) (mail x)) as [Heq|Hne].
  - exists 0%nat. split; [done|simpl; lia].
  - rewrite fmap_cons in Hx. apply elem_of_cons in Hx as [Hx|Hx]; [congruence|].
    destruct (IH Hx) as (j & -> & Hj). exists (S j). split; [done|simpl; lia].
Qed.

Lemma filterFirstIndex_from pre l (seen : gset string) :
  (forall e, e ∈ seen <-> e ∈ mail <$> pre) ->
  omap (fun o => o)
    (imap (fun k x =>
             if decide (findIndex mail x (pre ++ l)%list = Some (length pre + k)%nat)
             then Some x else None) l) =
  pushUnseen mail seen l.
Proof.
  revert pre seen. induction l as [|y l IH]; intros pre seen Hseen; [done|].
  rewrite imap_cons. cbn [omap list_omap pushUnseen].
  assert (Htail : forall seen',
             (forall e, e ∈ seen' <-> e ∈ mail <$> (pre ++ [y])%list) ->
             omap (fun o => o)
               (imap ((fun k x =>
                         if decide (findIndex mail x (pre ++ y :: l)%list
                                    = Some (length pre + k)%nat)
                         then Some x else None) ∘ S) l) =
             pushUnseen mail seen' l).
  { intros seen' Hseen'. rewrite <- (IH (pre ++ [y])%list seen' Hseen').
    f_equal. apply imap_ext. intros k x _. unfold compose.
    rewrite <- app_assoc. cbn [app]. rewrite length_app. simpl.
    by replace (length pre + 1 + k)%nat with (length pre + S k)%nat by lia. }
  destruct (decide (mail y ∈ seen)) as [Hin|Hout].
  - destruct (findIndex_app_seen y pre (y :: l)) as (j & Hj & Hlt); [by apply Hseen|].
    rewrite Hj. rewrite decide_False by (intros [= ->]; lia).
    apply Htail. intros e. rewrite fmap_app, elem_of_app, <- Hseen. simpl.
    rewrite list_elem_of_singleton. split; [by left|]. intros [?| ->]; done.
  - rewrite findIndex_app_unseen by (by rewrite <- Hseen).
    cbn [findIndex]. rewrite String.eqb_refl. cbn [fmap option_fmap option_map].
    rewrite decide_True by done. f_equal.
    apply Htail. intros e. rewrite fmap_app, elem_of_app, <- Hseen. simpl.
    rewrite list_elem_of_singleton. set_solver.
Qed.

(** The filter on the first index keeps what the pass with the set of
    seen emails keeps. *)
Lemma filterFirstIndex_pushUnseen l :
  filterFirstIndex mail l = pushUnseen mail ∅ l.
Proof.
  unfold filterFirstIndex. rewrite <- (filterFirstIndex_from [] l ∅).
  - done.
  - intros e. set_solver.
Qed.

End FirstIndex.

Lemma generateEmails_pushed fd domain e :
  e ∈ Discovery.generateEmails fd domain -> e ∈ Discovery.pushed fd domain.
Proof.
  unfold Discovery.generateEmails. rewrite sortByConfidence_perm.
  rewrite filterFirstIndex_pushUnseen. intros He.
  destruct (pushUnseen_elem Discovery.email Discovery.confidence _ _ _ He) as [Hin _].
  exact Hin.
Qed.

Lemma generateEmails_ranked_helper fd domain :
  NoDup (Discovery.email <$> Discovery.generateEmails fd domain).
Proof.
  unfold Discovery.generateEmails.
  rewrite sortByConfidence_perm, filterFirstIndex_pushUnseen.
  apply (pushUnseen_NoDup Discovery.email Discovery.confidence).
Qed.

(** X9. [generateEmails] returns candidates of pairwise distinct emails
    in the order of descending confidence. *)
Theorem generateEmails_distinct_descending (fd : Discovery.FormData) (domain : string) :
  NoDup (Discovery.email <$> Discovery.generateEmails fd domain) /\
  Sorted (fun a b => Discovery.confidence b <= Discovery.confidence a)
    (Discovery.generateEmails fd domain).
Proof.
  unfold Discovery.generateEmails. split.
  - rewrite sortByConfidence_perm, filterFirstIndex_pushUnseen.
    apply (pushUnseen_NoDup Discovery.email Discovery.confidence).
  - apply StronglySorted_Sorted. exact (sortByConfidence_sorted Discovery.confidence _).
Qed.

Lemma elem_of_when {A : Type} (b : bool) (l : list A) (x : A) :
  x ∈ Discovery.when b l <-> b = true /\ x ∈ l.
Proof.
  destruct b; simpl; [naive_solver|].
  split; [by intros ?%elem_of_nil|by intros [? _]].
Qed.

(** X10. Every candidate of [generateEmails] is a lower-case local part
    joined with the domain as it was given, at a confidence between 45
    and 90. *)
Theorem generateEmails_shape (fd : Discovery.FormData) (domain : string) :
  Forall (fun e =>
            (exists loc, JS.toLowerCase loc = loc /\
                         Discovery.email e = Discovery.at_ loc domain) /\
            45 <= Discovery.confidence e <= 90)
    (Discovery.generateEmails fd domain).
Proof.
  apply Forall_forall. intros e He%generateEmails_pushed.
  unfold Discovery.pushed in He.
  repeat first
    [ apply elem_of_app in He as [He|He]
    | apply elem_of_when in He as [? He]
    | apply elem_of_cons in He as [->|He]
    | apply list_elem_of_fmap in He as (name & -> & _)
    | by apply elem_of_nil in He ];
    repeat match goal with
           | H : _ && _ = true |- _ => apply andb_true_iff in H as [? ?]
           end;
    (split; [eexists; split; [|reflexivity]|simpl; lia]);
    rewrite ?toLowerCase_app, ?toLowerCase_idempotent, ?index0_lower by done;
    reflexivity.
Qed.

(** X11. Every selected custom name gives a candidate of
    [generateEmails], its lower-case form joined with the domain, also
    when the custom names are not enabled. *)
Theorem selected_names_always_used (fd : Discovery.FormData) (domain name : string) :
  name ∈ Discovery.selectedCustomNames fd ->
  Discovery.at_ (JS.toLowerCase name) domain
    ∈ Discovery.email <$> Discovery.generateEmails fd domain.
Proof.
  intros Hn.
  set (c := Discovery.mkDiscovered (Discovery.at_ (JS.toLowerCase name) domain) 90
              Discovery.custom_names).
  assert (Hc : c ∈ Discovery.pushed fd domain).
  { unfold Discovery.pushed. do 3 (apply elem_of_app; right).
    apply elem_of_app. left. apply list_elem_of_fmap. by exists name. }
  destruct (pushUnseen_first Discovery.email Discovery.confidence ∅ _ c Hc)
    as (l1 & r & l2 & _ & Hr & _ & Hin);
    [set_solver|].
  apply list_elem_of_fmap. exists r. split; [done|].
  unfold Discovery.generateEmails.
  by rewrite sortByConfidence_perm, filterFirstIndex_pushUnseen.
Qed.

Lemma selected_names_always_used_witness :
  "x@example.com"
    ∈ Discovery.email <$>
        Discovery.generateEmails
          (Discovery.mkFormData "" "" "" "" "" false false false false ["X"])
          "example.com".
Proof.
  exact (selected_names_always_used
           (Discovery.mkFormData "" "" "" "" "" false false false false ["X"])
           "example.com" "X" (list_elem_of_here "X" [])).
Defined.

(** ** Sessions *)

Section SessionEvolution.

Import Discovery Sessions.

Lemma filter_length_all {A : Type} (P : A -> Prop) `{!forall x, Decision (P x)} (l : list A) :
  length (filter P l) = length l <-> Forall P l.
Proof.
  induction l as [|x l IH]; [by split; [constructor|]|].
  rewrite filter_cons. pose proof (length_filter P l) as Hle.
  destruct (decide (P x)) as [Hx|Hx]; simpl.
  - rewrite Forall_cons. split; [intros [= ?]; split; [done|by apply IH]|].
    intros [_ ?]. f_equal. by apply IH.
  - split; [lia|]. by intros [? _]%Forall_cons.
Qed.

(** What an accepted request leaves: the domain is settled with its
    count.  The counters move by one domain and by the count, unless
    the request completes the session: then the domain may be counted
    twice, and its emails stay in the total when its count is reset. *)
Lemma processDomain_accepted parallelSave insertMany s collection i entry :
  status s = s_processing -> domains s !! i = Some entry ->
  deStatus entry = d_pending ->
  exists st count err processed discovered,
    (st = d_completed \/ st = d_error) /\ 0 <= count /\
    (processed = processedDomains s + 1 \/ processed = processedDomains s + 2) /\
    totalEmailsDiscovered s + count <= discovered /\
    ((totalDomains s <=? processedDomains s + 1) = false ->
     processed = processedDomains s + 1 /\
     discovered = totalEmailsDiscovered s + count) /\
    (processDomain parallelSave insertMany s collection i).1.2 =
      settleAt s i (mkDomainEntry (deDomain entry) st count err) processed discovered.
Proof.
  intros Hst Hi Hpending.
  rewrite (processDomain_pending _ _ _ _ _ _ Hst Hi Hpending). cbv zeta.
  assert (Hfailed : forall message processed discovered,
    (processed = processedDomains s + 1 \/ processed = processedDomains s + 2) ->
    totalEmailsDiscovered s + 0 <= discovered ->
    ((totalDomains s <=? processedDomains s + 1) = false ->
     processed = processedDomains s + 1 /\
     discovered = totalEmailsDiscovered s + 0) ->
    exists st count err processed' discovered',
      (st = d_completed \/ st = d_error) /\ 0 <= count /\
      (processed' = processedDomains s + 1 \/ processed' = processedDomains s + 2) /\
      totalEmailsDiscovered s + count <= discovered' /\
      ((totalDomains s <=? processedDomains s + 1) = false ->
       processed' = processedDomains s + 1 /\
       discovered' = totalEmailsDiscovered s + count) /\
      settleAt s i (failedEntry (deDomain entry) message) processed discovered =
      settleAt s i (mkDomainEntry (deDomain entry) st count err) processed' discovered').
  { intros message processed discovered Hp Hd Hnf. unfold failedEntry.
    exists (if JS.truthy message then d_error else d_completed), 0, (Some message),
      processed, discovered.
    split; [destruct (JS.truthy message); [by right|by left]|].
    split; [lia|]. split; [done|]. split; [done|]. by split. }
  set (count := Z.of_nat (length (limitedEmails s (deDomain entry)))).
  assert (0 <= count) by (unfold count; lia).
  assert (Hfail : forall message,
    exists st c err processed' discovered',
      (st = d_completed \/ st = d_error) /\ 0 <= c /\
      (processed' = processedDomains s + 1 \/ processed' = processedDomains s + 2) /\
      totalEmailsDiscovered s + c <= discovered' /\
      ((totalDomains s <=? processedDomains s + 1) = false ->
       processed' = processedDomains s + 1 /\
       discovered' = totalEmailsDiscovered s + c) /\
      settleAt s i (failedEntry (deDomain entry) message)
        (processedDomains s + 1) (totalEmailsDiscovered s) =
      settleAt s i (mkDomainEntry (deDomain entry) st c err) processed' discovered').
  { intros message. apply Hfailed; [by left|lia|]. intros _. split; [done|lia]. }
  assert (Hok :
    exists st c err processed' discovered',
      (st = d_completed \/ st = d_error) /\ 0 <= c /\
      (processed' = processedDomains s + 1 \/ processed' = processedDomains s + 2) /\
      totalEmailsDiscovered s + c <= discovered' /\
      ((totalDomains s <=? processedDomains s + 1) = false ->
       processed' = processedDomains s + 1 /\
       discovered' = totalEmailsDiscovered s + c) /\
      (if totalDomains s <=? processedDomains s + 1
       then (ServerError parallelSave,
             settleAt s i (failedEntry (deDomain entry) parallelSave)
               (processedDomains s + 2) (totalEmailsDiscovered s + count),
             (collection ++ emailDocuments (deDomain entry)
                              (limitedEmails s (deDomain entry)))%list)
       else (Processed (deDomain entry) count (limitedEmails s (deDomain entry)),
             settleAt s i (mkDomainEntry (deDomain entry) d_completed count None)
               (processedDomains s + 1) (totalEmailsDiscovered s + count),
             (collection ++ emailDocuments (deDomain entry)
                              (limitedEmails s (deDomain entry)))%list)).1.2 =
      settleAt s i (mkDomainEntry (deDomain entry) st c err) processed' discovered').
  { destruct (totalDomains s <=? processedDomains s + 1) eqn:Hfinal; cbn [fst snd].
    - apply Hfailed; [by right|lia|done].
    - exists d_completed, count, None, (processedDomains s + 1),
        (totalEmailsDiscovered s + count).
      split; [by left|]. split; [lia|]. split; [by left|]. split; [lia|].
      by split. }
  destruct (emailDocuments _ _) as [|doc docs], insertMany as [message|];
    first [ exact Hok | apply Hfail ].
Qed.

Lemma processDomain_cases parallelSave insertMany s collection i :
  (exists msg, processDomain parallelSave insertMany s collection i
               = (BadRequest msg, s, collection)) \/
  (exists entry, status s = s_processing /\ domains s !! i = Some entry /\
                 deStatus entry = d_pending).
Proof.
  destruct (status s) eqn:Hst;
    try (left; apply processDomain_refused; congruence).
  destruct (domains s !! i) as [entry|] eqn:Hi.
  - destruct (deStatus entry) eqn:Hd;
      try (left; apply processDomain_refused; congruence).
    right. by exists entry.
  - left. apply processDomain_refused. congruence.
Qed.

Lemma foldr_add_shift (l : list Z) (a : Z) :
  foldr Z.add a l = foldr Z.add 0 l + a.
Proof. induction l as [|x l IH]; simpl; [lia|]. rewrite IH. lia. Qed.

Lemma insert_settles (l : list DomainEntry) i entry entry' :
  l !! i = Some entry -> deStatus entry = d_pending ->
  Is_true (settledDomain entry') ->
  length (filter (fun d => Is_true (settledDomain d)) (<[i:=entry']> l)) = S (length (filter (fun d => Is_true (settledDomain d)) l)) /\
  foldr Z.add 0 (emailsCount <$> <[i:=entry']> l) =
    foldr Z.add 0 (emailsCount <$> l) - emailsCount entry + emailsCount entry'.
Proof.
  intros Hi Hp Hs.
  assert (Hlt : (i < length l)%nat) by (by eapply lookup_lt_Some).
  rewrite insert_take_drop by done.
  pose proof (take_drop_middle l i entry Hi) as Hl.
  revert Hl. generalize (take i l), (drop (S i) l). intros l1 l2 <-.
  rewrite !filter_app, !filter_cons, !length_app.
  rewrite decide_True by done.
  rewrite decide_False by (unfold settledDomain; rewrite Hp; simpl; tauto).
  rewrite !fmap_app, !fmap_cons, !foldr_app. simpl. split; [lia|].
  generalize (foldr Z.add 0 (emailsCount <$> l2)). intros z.
  rewrite (foldr_add_shift _ (emailsCount entry' + z)),
    (foldr_add_shift _ (emailsCount entry + z)). lia.
Qed.

Lemma processDomain_consistent parallelSave insertMany s collection i :
  consistent s ->
  consistent (processDomain parallelSave insertMany s collection i).1.2.
Proof.
  intros Hs.
  destruct (processDomain_cases parallelSave insertMany s collection i)
    as [[msg ->]|(entry & Hst & Hi & Hp)]; [done|].
  destruct (processDomain_accepted parallelSave insertMany s collection i entry
              Hst Hi Hp)
    as (st & count & err & processed & discovered
        & Hstatus & Hcount & Hprocessed & Hdiscovered & Hexact & ->).
  destruct Hs as [Htot Hnear Hsum Huntil Hnone Hpend Hpos Hdone Hnever].
  destruct Huntil as [Hproc Hdisc]; [congruence|].
  set (entry' := mkDomainEntry (deDomain entry) st count err).
  assert (Hsettled : Is_true (settledDomain entry'))
    by (unfold settledDomain, entry'; simpl; by destruct Hstatus as [-> | ->]).
  destruct (insert_settles (domains s) i entry entry' Hi Hp Hsettled) as [Hlen Hfold].
  assert (Hzero : emailsCount entry = 0).
  { eapply Forall_lookup_1 in Hpend; [|exact Hi]. by apply Hpend. }
  pose proof (length_filter (fun d => Is_true (settledDomain d))
                (<[i:=entry']> (domains s))) as Hle.
  rewrite length_insert in Hle.
  unfold settledCount, countSum in *.
  split; unfold settledCount, countSum, settleAt;
    cbn [status domains totalDomains processedDomains totalEmailsDiscovered].
  - by rewrite length_insert.
  - rewrite Hlen. lia.
  - rewrite Hfold, Hzero. unfold entry'. simpl. lia.
  - intros Hnot.
    destruct (totalDomains s <=? processedDomains s + 1) eqn:Hfinal; [done|].
    destruct (Hexact eq_refl) as [-> ->].
    rewrite Hlen, Hfold, Hzero. unfold entry'. simpl. lia.
  - apply Forall_insert; [done|]. unfold entry'. simpl. by destruct Hstatus as [-> | ->].
  - apply Forall_insert; [done|]. unfold entry'. simpl. by destruct Hstatus as [-> | ->].
  - apply Forall_insert; [done|]. by unfold entry'.
  - rewrite <- filter_length_all, length_insert, Hlen.
    destruct (Z.leb_spec (totalDomains s) (processedDomains s + 1)); split;
      try done; try lia. rewrite Hst. done.
  - destruct (totalDomains s <=? processedDomains s + 1); [done|].
    by rewrite Hst.
Qed.

Lemma cancelSession_consistent s s' :
  consistent s -> cancelSession s = Some s' -> consistent s'.
Proof.
  intros [Htot Hnear Hsum Huntil Hnone Hpend Hpos Hdone Hnever]. unfold cancelSession.
  destruct Hnever as [Hnp Hnf].
  destruct (status s) eqn:Hst; try done. intros [= <-].
  split; unfold settledCount, countSum in *;
    cbn [status domains totalDomains processedDomains totalEmailsDiscovered];
    try done.
  - intros _. by apply Huntil.
  - split; [done|]. intros Hall. apply Hdone in Hall. congruence.
Qed.

Lemma fresh_domains (l : list string) :
  let ds := map (fun d => mkDomainEntry (JS.toLowerCase (JS.trim d)) d_pending 0 None) l in
  length ds = length l /\
  filter (fun d => Is_true (settledDomain d)) ds = [] /\
  foldr Z.add 0 (emailsCount <$> ds) = 0 /\
  Forall (fun d => deStatus d = d_pending /\ emailsCount d = 0) ds.
Proof.
  induction l as [|x l (IH1 & IH2 & IH3 & IH4)]; [by repeat split|].
  cbn [map]. rewrite filter_cons, fmap_cons. cbn [length foldr].
  rewrite decide_False by (unfold settledDomain; simpl; tauto).
  repeat split; [by f_equal|done|by rewrite IH3|by constructor].
Qed.

Lemma startDiscovery_consistent req s :
  startDiscovery req = Some s -> consistent s.
Proof.
  unfold startDiscovery. destruct (negb _); [done|].
  destruct (reqDomains req) as [|d ds] eqn:Hd; [done|].
  destruct (fresh_domains (d :: ds)) as (H1 & H2 & H3 & H4).
  cbn [map] in H1, H2, H3, H4. intros [= <-].
  split; unfold settledCount, countSum;
    cbn [status domains totalDomains processedDomains totalEmailsDiscovered].
  - by rewrite H1.
  - rewrite H2. simpl. lia.
  - by rewrite H3.
  - intros _. by rewrite H2, H3.
  - eapply Forall_impl; [exact H4|]. intros e [-> _]. done.
  - eapply Forall_impl; [exact H4|]. by intros e [_ ->].
  - eapply Forall_impl; [exact H4|]. intros e [_ ->]. done.
  - split; [done|]. intros Hall%Forall_cons_1. by destruct Hall.
  - done.
Qed.


Lemma evolves_keeps s0 s :
  evolves s0 s -> config s = config s0 /\ sFormData s = sFormData s0.
Proof.
  induction 1 as [|s1 parallelSave insertMany collection i _ [IHc IHf]
                  |s1 s2 _ [IHc IHf] Hc].
  - done.
  - destruct (processDomain_keeps parallelSave insertMany s1 collection i)
      as [-> ->]. done.
  - unfold cancelSession in Hc.
    destruct (status s1); try discriminate Hc; by injection Hc as <-.
Qed.

End SessionEvolution.

(** X12. From its start on, through every request to process a domain
    and to cancel, the counters of a session stand to its domains as
    follows.  Until the session is completed, the processed domains are
    the settled ones and the discovered emails are the sum of the counts
    of the domains.  The request that completes the session may count
    its domain twice and keeps its emails in the total while the count
    of the domain is reset: from then on the processed domains are the
    settled ones or one more, and the discovered emails are at least the
    sum of the counts.  At every point the total is the number of
    domains, no domain is left in progress, a pending domain has no
    count, and the session is completed exactly when every domain is
    settled. *)
Theorem session_counters_consistent
  (req : Discovery.StartRequest) (s0 s : Discovery.Session) :
  Discovery.startDiscovery req = Some s0 ->
  Sessions.evolves s0 s ->
  Sessions.consistent s.
Proof.
  intros Hstart Hev.
  induction Hev as [|s1 parallelSave insertMany collection i _ IH|s1 s2 _ IH Hc].
  - by apply startDiscovery_consistent in Hstart.
  - by apply processDomain_consistent.
  - by eapply cancelSession_consistent.
Qed.

Lemma session_counters_consistent_witness :
  Sessions.consistent
    (Discovery.mkSession Discovery.s_completed
       [ Discovery.mkDomainEntry "example.com" Discovery.d_completed 3 None;
         Discovery.mkDomainEntry "example.org" Discovery.d_error 0
           (Some Samples.parallelSave) ]
       Samples.johnDoeForm (Discovery.mkConfig 3 60) 2 3 2 6).
Proof.
  exact (session_counters_consistent Samples.startJohnDoe Samples.startedJohnDoe _
           eq_refl
           (Sessions.ev_process _ _ Samples.parallelSave None [] 1%nat
              (Sessions.ev_process _ _ Samples.parallelSave None [] 0%nat
                 (Sessions.ev_here _)))).
Defined.



(** ** The domain file *)

Lemma lowerChar_hash c :
  Ascii.eqb "#"%char (JS.lowerChar c) = Ascii.eqb "#"%char c /\
  Ascii.eqb "."%char (JS.lowerChar c) = Ascii.eqb "."%char c.
Proof. destruct c as [[] [] [] [] [] [] [] []]; vm_compute; split; reflexivity. Qed.

Lemma truthy_lower s : JS.truthy (JS.toLowerCase s) = JS.truthy s.
Proof. by destruct s. Qed.

Lemma startsWith_hash_lower s :
  JS.startsWith "#" (JS.toLowerCase s) = JS.startsWith "#" s.
Proof.
  destruct s as [|c s]; [done|]. unfold JS.startsWith.
  cbn [JS.toLowerCase JS.stripPrefix].
  destruct (lowerChar_hash c) as [-> _]. by destruct (Ascii.eqb "#" c).
Qed.

Lemma includes_dot_lower s :
  JS.includes "." (JS.toLowerCase s) = JS.includes "." s.
Proof.
  induction s as [|c s IH]; [done|]. cbn [JS.toLowerCase JS.includes].
  rewrite IH. f_equal. unfold JS.startsWith. cbn [JS.stripPrefix].
  destruct (lowerChar_hash c) as [_ ->]. by destruct (Ascii.eqb "." c).
Qed.

Lemma domainsFromFile_checked (fileContent : string) :
  Forall (fun d => JS.truthy d = true /\ JS.toLowerCase d = d /\
                   JS.startsWith "#" d = false /\ JS.includes "." d = true)
    (Upload.domainsFromFile fileContent).
Proof.
  unfold Upload.domainsFromFile. apply Forall_forall. intros d Hd.
  apply list_elem_of_In, in_map_iff in Hd as (line & <- & Hline).
  apply list_elem_of_In, list_elem_of_filter in Hline as [Hok _].
  apply Is_true_true in Hok. apply andb_true_iff in Hok as [Hok Hdot].
  apply andb_true_iff in Hok as [Htruthy Hhash]. apply negb_true_iff in Hhash.
  rewrite truthy_lower, toLowerCase_idempotent, startsWith_hash_lower, includes_dot_lower.
  done.
Qed.

(** X14. Every domain that the handler reads from the uploaded file is
    a non-empty lower-case text with a dot in it that does not start
    with the comment sign. *)
Theorem domainsFromFile_valid (fileContent : string) :
  Forall (fun d => JS.truthy d = true /\ JS.toLowerCase d = d /\
                   JS.startsWith "#" d = false /\ JS.includes "." d = true)
    (Upload.domainsFromFile fileContent).
Proof. apply domainsFromFile_checked. Qed.

Lemma filter_all {A : Type} (P : A -> Prop) `{!forall x, Decision (P x)} (l : list A) :
  Forall P l -> filter P l = l.
Proof.
  induction 1 as [|x l Hx _ IH]; [done|].
  rewrite filter_cons, decide_True by done. by rewrite IH.
Qed.

(** X15. When the form names no domain, the loop works on every domain
    read from the file, each one once at its first place: the filter of
    [processMultipleDomains] drops none of them. *)
Theorem uploaded_domains_all_processed
  (urlHostname regexHost : string -> option string)
  (formData : Server.FormData) (fileContent : string) :
  Server.fdDomain formData = "" ->
  Server.uniqueDomains urlHostname regexHost formData
    (Upload.domainsFromFile fileContent) =
  map (Server.cleanEntry urlHostname regexHost)
    (pushUnseen (fun d => d) ∅ (Upload.domainsFromFile fileContent)).
Proof.
  intros Hd. unfold Server.uniqueDomains, Server.allDomains. rewrite Hd. simpl.
  f_equal. apply filter_all, Forall_forall. intros d Hin.
  destruct (pushUnseen_elem (fun d : string => d) (fun _ => 0) _ _ _ Hin) as [Hin' _].
  pose proof (domainsFromFile_checked fileContent) as Hall.
  rewrite Forall_forall in Hall. destruct (Hall d Hin') as (-> & _ & -> & ->). done.
Qed.

Lemma uploaded_domains_all_processed_witness :
  Server.uniqueDomains Samples.noHost Samples.noHost Samples.plainForm
    (Upload.domainsFromFile "Good.com
# a comment
www.bad.com

good.com") = ["good.com"; "bad.com"].
Proof.
  exact (uploaded_domains_all_processed Samples.noHost Samples.noHost
           Samples.plainForm _ eq_refl).
Defined.

(** X24. The handler keeps the lines that [readDomainsFromFile] keeps
    and that have a dot in them; a file that cannot be read gives no
    domain. *)
Theorem domainsFromFile_refines_read (fileContent : string) :
  Upload.domainsFromFile fileContent =
    filter (fun d => Is_true (JS.includes "." d))
      (Upload.readDomainsFromFile (Some fileContent)) /\
  Upload.readDomainsFromFile None = [].
Proof.
  split; [|done]. unfold Upload.domainsFromFile, Upload.readDomainsFromFile.
  generalize (map JS.trim (JSText.splitOn "010" fileContent)). intros l.
  induction l as [|x l IH]; [done|].
  rewrite !filter_cons.
  destruct (JS.truthy x && negb (JS.startsWith "#" x)) eqn:Hx;
    destruct (JS.includes "." x) eqn:Hdot; simpl;
    rewrite ?filter_cons, ?includes_dot_lower, ?Hdot; simpl; by rewrite IH.
Qed.

(** ** The verification service *)

Section VerificationFacts.

Import Verification.

Lemma verifyEmail_facts outcome usageCount mail :
  resultEmail (verifyEmail outcome usageCount mail).1 = mail /\
  resultCost (verifyEmail outcome usageCount mail).1 = 1 /\
  (verifyEmail outcome usageCount mail).2 = usageCount + 1.
Proof. by destruct outcome. Qed.

Lemma verifyAll_facts check usageCount emails :
  resultEmail <$> (verifyAll check usageCount emails).1.1 = email <$> emails /\
  (verifyAll check usageCount emails).1.2 =
    usageCount + Z.of_nat (length (verifyAll check usageCount emails).1.1) /\
  foldr Z.add 0 (resultCost <$> (verifyAll check usageCount emails).1.1) =
    Z.of_nat (length (verifyAll check usageCount emails).1.1) /\
  (verifyAll check usageCount emails).2 =
    flat_map (fun c => [EvCheck (email c); EvDelay 200]) emails.
Proof.
  revert usageCount. induction emails as [|c emails IH]; intros usageCount;
    [simpl; repeat split; lia|].
  cbn [verifyAll].
  destruct (verifyEmail_facts (check (email c)) usageCount (email c)) as (He & Hc & Hu).
  destruct (verifyEmail (check (email c)) usageCount (email c)) as [result usage1].
  cbn [fst snd] in He, Hc, Hu. subst usage1.
  destruct (IH (usageCount + 1)) as (IH1 & IH2 & IH3 & IH4).
  destruct (verifyAll check (usageCount + 1) emails) as [[results usage2] events].
  cbn [fst snd] in *. rewrite !fmap_cons. cbn [length foldr flat_map app].
  rewrite IH1, IH3, IH4, He, Hc, IH2. repeat split; lia.
Qed.

End VerificationFacts.

(** X16. A batch verification checks the first [maxEmails] emails of
    the list in their order, each check followed by the delay of 200 ms;
    every result costs one credit, also when the check throws, and the
    usage counter goes up by the number of results. *)
Theorem batchVerification_accounting
  (check : string -> Verification.CheckOutcome) (usageCount : Z)
  (emails : list Candidate) (maxEmails : Z) :
  let '(results, usage, events) :=
    Verification.batchVerification check usageCount emails maxEmails in
  Verification.resultEmail <$> results = email <$> Discovery.slice0 emails maxEmails /\
  usage = usageCount + Z.of_nat (length results) /\
  foldr Z.add 0 (Verification.resultCost <$> results) = Z.of_nat (length results) /\
  events = flat_map (fun c => [Verification.EvCheck (email c); Verification.EvDelay 200])
             (Discovery.slice0 emails maxEmails).
Proof.
  unfold Verification.batchVerification.
  pose proof (verifyAll_facts check usageCount (Discovery.slice0 emails maxEmails)) as H.
  by destruct (Verification.verifyAll _ _ _) as [[results usage] events].
Qed.

Lemma slice0_length {A : Type} (l : list A) (e : Z) :
  0 <= e -> Z.of_nat (length (Discovery.slice0 l e)) <= e.
Proof. intros He. rewrite slice0_take by done. rewrite length_take. lia. Qed.

(** X17. The handler of smart-verify refuses a body without the array
    and leaves the usage counter; otherwise it counts from zero, so that
    the usage count of the answer is the number of results, and it
    verifies no more than [maxEmails] emails, ten when the body does
    not give it. *)
Theorem smartVerify_counts_results
  (check : string -> Verification.CheckOutcome) (usageCount : Z)
  (body : Verification.VerifyBody) :
  match Verification.smartVerify check usageCount body with
  | (Verification.Verified results n _, usage) =>
      n = Z.of_nat (length results) /\ usage = n /\
      (Verification.maxEmails body = None -> (length results <= 10)%nat) /\
      (forall m, Verification.maxEmails body = Some m -> 0 <= m ->
                 Z.of_nat (length results) <= m)
  | (Verification.Rejected _, usage) =>
      usage = usageCount /\ Verification.emailsWithConfidence body = None
  end.
Proof.
  unfold Verification.smartVerify.
  destruct (Verification.emailsWithConfidence body) as [emails|]; [|done].
  set (m := default 10 (Verification.maxEmails body)).
  unfold Verification.batchVerification.
  pose proof (verifyAll_facts check 0 (Discovery.slice0 emails m)) as H.
  destruct (Verification.verifyAll check 0 (Discovery.slice0 emails m))
    as [[results usage] events]. cbn [fst snd] in H.
  destruct H as (Hmail & Hu & _ & _).
  assert (Hlen : length results = length (Discovery.slice0 emails m)).
  { by rewrite <- (length_fmap Verification.resultEmail), Hmail, length_fmap. }
  split; [lia|]. split; [done|]. split.
  - intros Hnone. unfold m in Hlen. rewrite Hnone in Hlen. simpl in Hlen.
    pose proof (slice0_length emails 10). lia.
  - intros m' Hsome Hpos. unfold m in Hlen. rewrite Hsome in Hlen. simpl in Hlen.
    pose proof (slice0_length emails m' Hpos). lia.
Qed.

(** X18. For a check that answered, the fields of the result agree:
    a deliverable email is reachable, the email is not reachable exactly
    when its syntax is marked invalid, which is when the mailbox is
    marked disabled and the host as missing. *)
Theorem verifyEmail_fields_agree
  (result : string) (flags : option (list string)) (suggested : string)
  (usageCount : Z) (mail : string) :
  match (Verification.verifyEmail
           (Verification.Checked result flags suggested) usageCount mail).1 with
  | Verification.Mapped _ _ reachable syntax smtp _ _ _ _ _ =>
      (Verification.deliverable smtp = true -> reachable = "yes") /\
      (reachable = "no" <-> Verification.valid syntax = false) /\
      Verification.disabled smtp = negb (Verification.valid syntax) /\
      Verification.host_exists smtp = Verification.valid syntax /\
      (Verification.catch_all smtp = true -> Verification.deliverable smtp = true)
  | Verification.Failed _ _ _ => False
  end.
Proof.
  cbn [Verification.verifyEmail fst Verification.deliverable Verification.valid
         Verification.disabled Verification.host_exists Verification.catch_all].
  unfold Verification.mapNeverBounceStatus.
  destruct (String.eqb_spec result "valid") as [->|?]; [by repeat split|].
  destruct (String.eqb_spec result "invalid") as [->|?]; [by repeat split|].
  destruct (String.eqb_spec result "catchall") as [->|?]; [by repeat split|].
  destruct (String.eqb_spec result "disposable") as [->|?]; [by repeat split|].
  destruct (String.eqb_spec result "unknown") as [->|?]; by repeat split.
Qed.

Lemma splitGo_no_sep sep piece s :
  JSText.occurs sep s = false -> JSText.splitGo sep piece s = [piece +:+ s].
Proof.
  revert piece. induction s as [|c s IH]; intros piece Hs.
  - by rewrite string_app_nil_r.
  - cbn [JSText.occurs] in Hs. apply orb_false_iff in Hs as [Hc Hs].
    cbn [JSText.splitGo]. rewrite Hc, IH by done.
    by rewrite string_app_assoc.
Qed.

Lemma splitGo_at_sep sep piece s t :
  JSText.occurs sep s = false ->
  JSText.splitGo sep piece (s +:+ String sep t) =
    (piece +:+ s) :: JSText.splitGo sep "" t.
Proof.
  revert piece. induction s as [|c s IH]; intros piece Hs.
  - change ("" +:+ String sep t) with (String sep t). cbn [JSText.splitGo].
    rewrite Ascii.eqb_refl. by rewrite string_app_nil_r.
  - cbn [JSText.occurs] in Hs. apply orb_false_iff in Hs as [Hc Hs].
    rewrite string_app_cons. cbn [JSText.splitGo]. rewrite Hc, IH by done.
    by rewrite string_app_assoc.
Qed.

(** X19. For an email made of a local part and a domain without an at
    sign in either, the result of the check names the local part as the
    user and the domain as the domain. *)
Theorem verifyEmail_splits_address
  (loc dom result : string) (flags : option (list string)) (suggested : string)
  (usageCount : Z) :
  JSText.occurs "@" loc = false ->
  JSText.occurs "@" dom = false ->
  match (Verification.verifyEmail (Verification.Checked result flags suggested)
           usageCount (Permute.at_ loc dom)).1 with
  | Verification.Mapped _ _ _ syntax _ _ _ _ _ _ =>
      Verification.username syntax = loc /\ Verification.domain syntax = Some dom
  | Verification.Failed _ _ _ => False
  end.
Proof.
  intros Hloc Hdom. cbn [Verification.verifyEmail fst Verification.username
                           Verification.domain].
  unfold JSText.splitOn, Permute.at_.
  change ("@" +:+ dom) with (String "@" dom).
  rewrite splitGo_at_sep by done. rewrite splitGo_no_sep by done. done.
Qed.

Lemma verifyEmail_splits_address_witness :
  match (Verification.verifyEmail (Verification.Checked "valid" None "")
           0 (Permute.at_ "john.doe" "example.com")).1 with
  | Verification.Mapped _ _ _ syntax _ _ _ _ _ _ =>
      Verification.username syntax = "john.doe" /\
      Verification.domain syntax = Some "example.com"
  | Verification.Failed _ _ _ => False
  end.
Proof.
  exact (verifyEmail_splits_address "john.doe" "example.com" "valid" None "" 0
           eq_refl eq_refl).
Defined.

(** X20. On a batch whose custom names parse, the requests follow one
    another with the delay of 1000 ms after every domain but the last. *)
Theorem delays_between_domains
  (urlHostname regexHost : string -> option string)
  (resolve : string -> Server.FetchOutcome) (draw : nat -> nat -> nat)
  (formData : Server.FormData) (domainsFromFile names : list string) :
  Server.parseSelectedCustomNames (Server.fdSelectedCustomNames formData) = inr names ->
  (Server.processMultipleDomains urlHostname regexHost resolve draw formData
     domainsFromFile).2 =
  spacedFetches (Server.uniqueDomains urlHostname regexHost formData domainsFromFile).
Proof.
  intros Hp. unfold Server.processMultipleDomains, Server.processDomains,
    Server.runLoop. simpl.
  by rewrite (loopFrom_trace_completed _ _ _ names).
Qed.

Lemma delays_between_domains_witness :
  (Server.processMultipleDomains Samples.noHost Samples.noHost Samples.failsForBad
     Samples.noDraws Samples.plainForm ["a.com"; "b.com"; "c.com"]).2 =
  [ Server.EvFetch "a.com"; Server.EvDelay 1000; Server.EvFetch "b.com";
    Server.EvDelay 1000; Server.EvFetch "c.com" ].
Proof.
  exact (delays_between_domains Samples.noHost Samples.noHost Samples.failsForBad
           Samples.noDraws Samples.plainForm ["a.com"; "b.com"; "c.com"] []
           eq_refl).
Defined.

(** X21. For every candidate of the input, the ranking keeps exactly
    one element with its email; that element is one of the input and no
    candidate of that email has a higher confidence. *)
Theorem rank_keeps_highest (l : list Candidate) (c : Candidate) :
  c ∈ l ->
  exists r, r ∈ rank l /\ r ∈ l /\ email r = email c /\
            confidence c <= confidence r /\
            (forall r', r' ∈ rank l -> email r' = email c -> r' = r).
Proof. apply rankBy_highest. Qed.

Lemma rank_keeps_highest_witness :
  exists r, r ∈ rank [mkCandidate "a@x.com" 60; mkCandidate "a@x.com" 90] /\
            r ∈ [mkCandidate "a@x.com" 60; mkCandidate "a@x.com" 90] /\
            email r = "a@x.com" /\ 60 <= confidence r /\
            (forall r', r' ∈ rank [mkCandidate "a@x.com" 60; mkCandidate "a@x.com" 90] ->
                        email r' = "a@x.com" -> r' = r).
Proof.
  exact (rank_keeps_highest [mkCandidate "a@x.com" 60; mkCandidate "a@x.com" 90]
           (mkCandidate "a@x.com" 60) (list_elem_of_here _ _)).
Defined.

(** X22. The threshold and the cap of a session stay those of its
    start, the threshold within 0 to 100 and the cap within 1 to 1000.
    The validator lets a requested threshold of 0 through as a number
    and as a text: the number 0 is replaced by the default 25, the text
    of 0 is kept, and it is the only request that gives a session the
    threshold 0. *)
Theorem session_config_bounds
  (req : Discovery.StartRequest) (s0 s : Discovery.Session) :
  Discovery.startDiscovery req = Some s0 ->
  Sessions.evolves s0 s ->
  Discovery.config s = Discovery.config s0 /\
  0 <= Discovery.confidenceThreshold (Discovery.config s) <= 100 /\
  1 <= Discovery.maxEmailsPerDomain (Discovery.config s) <= 1000 /\
  (Discovery.rawConfidenceThreshold (Discovery.reqConfig req)
   = Some (Discovery.AsNumber 0) ->
   Discovery.confidenceThreshold (Discovery.config s) = 25) /\
  (Discovery.rawConfidenceThreshold (Discovery.reqConfig req)
   = Some (Discovery.AsText 0) ->
   Discovery.confidenceThreshold (Discovery.config s) = 0) /\
  (Discovery.confidenceThreshold (Discovery.config s) = 0 ->
   Discovery.rawConfidenceThreshold (Discovery.reqConfig req)
   = Some (Discovery.AsText 0)).
Proof.
  intros Hstart Hev.
  destruct (startDiscovery_config req s0 Hstart) as (_ & _ & Hthr & Hm & Ht).
  destruct (evolves_keeps s0 s Hev) as [-> _].
  split; [done|]. split; [done|]. split; [done|]. rewrite Hthr.
  split; [by intros ->|]. split; [by intros ->|].
  unfold Discovery.orDefault.
  destruct (Discovery.rawConfidenceThreshold (Discovery.reqConfig req))
    as [[n|n]|]; [|by intros ->|done].
  destruct (Z.eqb_spec n 0); [done|]. intros ->. done.
Qed.

Lemma session_config_bounds_witness :
  Discovery.confidenceThreshold
    (Discovery.config
       (Discovery.processDomain Samples.parallelSave None
          Samples.startedNumberZero [] 0).1.2) = 25 /\
  Discovery.confidenceThreshold
    (Discovery.config
       (Discovery.processDomain Samples.parallelSave None
          Samples.startedTextZero [] 0).1.2) = 0.
Proof.
  split.
  - apply (session_config_bounds Samples.startNumberZero
             Samples.startedNumberZero _ eq_refl
             (Sessions.ev_process _ _ Samples.parallelSave None [] 0%nat
                (Sessions.ev_here _))).
    reflexivity.
  - apply (session_config_bounds Samples.startTextZero
             Samples.startedTextZero _ eq_refl
             (Sessions.ev_process _ _ Samples.parallelSave None [] 0%nat
                (Sessions.ev_here _))).
    reflexivity.
Defined.

(** X23. The documents that a request adds for a domain all carry the
    domain, trimmed and in lower case.  When the schema of the
    collection leaves the emails of the kept candidates as they are,
    that is, when each is trimmed and in lower case already, the emails
    of the added documents are pairwise distinct. *)
Theorem stored_documents_distinct
  (parallelSave : string) (insertMany : option string) (s : Discovery.Session)
  (collection : list Discovery.EmailDocument) (i : nat)
  (entry : Discovery.DomainEntry) :
  Discovery.domains s !! i = Some entry ->
  Forall (fun e => JS.toLowerCase (JS.trim (Discovery.email e)) = Discovery.email e)
    (Discovery.limitedEmails s (Discovery.deDomain entry)) ->
  exists docs,
    (Discovery.processDomain parallelSave insertMany s collection i).2
    = (collection ++ docs)%list /\
    NoDup (Discovery.docEmail <$> docs) /\
    Forall (fun doc => Discovery.docDomain doc
                       = JS.toLowerCase (JS.trim (Discovery.deDomain entry))) docs.
Proof.
  intros Hi Hnorm.
  assert (Hnil : exists docs : list Discovery.EmailDocument,
             collection = (collection ++ docs)%list /\
             NoDup (Discovery.docEmail <$> docs) /\
             Forall (fun doc => Discovery.docDomain doc
                       = JS.toLowerCase (JS.trim (Discovery.deDomain entry))) docs).
  { exists []. rewrite app_nil_r. repeat split; constructor. }
  destruct (processDomain_cases parallelSave insertMany s collection i)
    as [[msg ->]|(entry' & Hst & Hi' & Hp)]; [exact Hnil|].
  rewrite Hi in Hi'. injection Hi' as <-.
  rewrite (processDomain_pending _ _ _ _ _ _ Hst Hi Hp). cbv zeta.
  assert (Hdocs : NoDup (Discovery.docEmail <$>
                    Discovery.emailDocuments (Discovery.deDomain entry)
                      (Discovery.limitedEmails s (Discovery.deDomain entry))) /\
                  Forall (fun doc => Discovery.docDomain doc
                            = JS.toLowerCase (JS.trim (Discovery.deDomain entry)))
                    (Discovery.emailDocuments (Discovery.deDomain entry)
                       (Discovery.limitedEmails s (Discovery.deDomain entry)))).
  { split.
    - unfold Discovery.emailDocuments.
      replace (Discovery.docEmail <$> map _ _)
        with (Discovery.email <$> Discovery.limitedEmails s (Discovery.deDomain entry)).
      + eapply sublist_NoDup.
        * apply (generateEmails_ranked_helper (Discovery.sFormData s)
                   (Discovery.deDomain entry)).
        * apply fmap_sublist. unfold Discovery.limitedEmails, Discovery.filteredEmails,
            Discovery.slice0. etrans; [apply sublist_take|apply sublist_filter].
      + revert Hnorm. generalize (Discovery.limitedEmails s (Discovery.deDomain entry)).
        intros l Hl. induction Hl as [|x l Hx _ IH]; [done|]. cbn [map].
        rewrite !fmap_cons. cbn [Discovery.docEmail]. by rewrite Hx, IH.
    - unfold Discovery.emailDocuments. apply Forall_map, Forall_forall.
      intros x _. done. }
  destruct Hdocs as [Hnd Hdom].
  destruct (Discovery.emailDocuments _ _) eqn:Hd.
  - destruct insertMany, (_ <=? _); cbn [snd];
      (exists []; split; [done|split; constructor]).
  - destruct insertMany, (_ <=? _); cbn [snd];
      first [exact Hnil | eexists; split; [reflexivity|by split]].
Qed.

Lemma stored_documents_distinct_witness :
  exists docs,
    (Discovery.processDomain Samples.parallelSave None
       Samples.startedJohnDoe [] 0).2 = ([] ++ docs)%list /\
    NoDup (Discovery.docEmail <$> docs) /\
    Forall (fun doc => Discovery.docDomain doc
                       = JS.toLowerCase (JS.trim "example.com")) docs.
Proof.
  apply (stored_documents_distinct Samples.parallelSave None
           Samples.startedJohnDoe [] 0
           (Discovery.mkDomainEntry "example.com" Discovery.d_pending 0 None)).
  - reflexivity.
  - vm_compute. repeat constructor.
Defined.

(** Two selected names that differ by a space in front are stored as
    the same email. *)
Example stored_documents_may_coincide :
  Discovery.docEmail <$>
    (Discovery.processDomain Samples.parallelSave None
       Samples.startedTwoBoss [] 0).2 =
  ["boss@a.com"; "boss@a.com"].
Proof. vm_compute. reflexivity. Qed.

(** X25. Without custom names the second ranking of [permute] changes
    nothing: the result is the ranked list of the generator. *)
Theorem permute_without_custom_names (draw : nat -> nat) (d : Permute.Data) :
  Permute.useCustomNames d = false ->
  Permute.permute draw d =
    Permute.generateRankedEmails (Permute.domain d)
      (Permute.cleanDomain (Permute.domain d)) (Permute.useAdvancedEmails d) draw
      (Permute.webhookNamesOf d).
Proof.
  intros Hc. unfold Permute.permute, Permute.allEmails. rewrite Hc, app_nil_r.
  destruct (Permute.webhookNamesOf d) as [|n names]; [done|].
  apply (rankBy_idempotent email confidence).
Qed.

Lemma permute_without_custom_names_witness :
  Permute.permute Samples.noDraw (Samples.johnDoeData "example.com") =
    Permute.generateRankedEmails "example.com" (Permute.cleanDomain "example.com")
      false Samples.noDraw ["John Doe"].
Proof.
  exact (permute_without_custom_names Samples.noDraw
           (Samples.johnDoeData "example.com") eq_refl).
Defined.

Lemma rank_elem_top (l : list Candidate) (c x : Candidate) :
  c ∈ rank l -> x ∈ l -> email x = email c -> confidence x <= confidence c.
Proof.
  intros Hc Hx Hmail.
  destruct (rank_highest_confidence_wins l x Hx) as (r & _ & _ & _ & Hle & Huniq).
  by rewrite (Huniq c Hc) by done.
Qed.

Lemma personEmails_advanced domain clean draw i fullName x :
  x ∈ Permute.personEmails domain clean true draw i fullName ->
  x ∈ Permute.personEmails domain clean false draw i fullName \/ confidence x <= 20.
Proof.
  unfold Permute.personEmails.
  destruct (JS.splitWhitespace (JS.trim fullName)) as [|first rest];
    [by intros ?%elem_of_nil|].
  intros [Hx|Hx]%elem_of_app; [right|by left].
  unfold Permute.advancedPatterns in Hx.
  repeat (apply elem_of_cons in Hx as [->|Hx]); try (by apply elem_of_nil in Hx);
    simpl; lia.
Qed.

Lemma personEmails_without_advanced domain clean draw i fullName x :
  x ∈ Permute.personEmails domain clean false draw i fullName ->
  x ∈ Permute.personEmails domain clean true draw i fullName.
Proof.
  unfold Permute.personEmails.
  destruct (JS.splitWhitespace (JS.trim fullName)) as [|first rest]; [done|].
  intros Hx. apply elem_of_app. by right.
Qed.

Lemma generated_with_advanced domain clean draw names c :
  c ∈ Permute.generateRankedEmails domain clean false draw names ->
  c ∈ Permute.generateRankedEmails domain clean true draw names.
Proof.
  intros Hc. pose proof (generated_bounds _ _ _ _ _ _ Hc) as [_ Hlow].
  specialize (Hlow eq_refl).
  apply rank_keeps_top.
  - apply rank_elem, allEmailPatterns_elem in Hc as (i & n & Hn & Hc).
    apply allEmailPatterns_elem. exists i, n. split; [done|].
    by apply personEmails_without_advanced.
  - intros x Hx Hmail. apply allEmailPatterns_elem in Hx as (i & n & Hn & Hx).
    apply personEmails_advanced in Hx as [Hx|Hx]; [|lia].
    eapply rank_elem_top; [exact Hc| |done].
    apply allEmailPatterns_elem. by exists i, n.
Qed.

(** X26. Turning the advanced patterns on takes no candidate away and
    changes no confidence: every candidate of [permute] without them is
    a candidate of [permute] with them, for the same draws. *)
Theorem advanced_patterns_only_add (draw : nat -> nat) (d : Permute.Data)
  (c : Candidate) :
  c ∈ Permute.permute draw
        {| Permute.domain := Permute.domain d;
           Permute.useCustomNames := Permute.useCustomNames d;
           Permute.selectedCustomNames := Permute.selectedCustomNames d;
           Permute.usePersonalInfo := Permute.usePersonalInfo d;
           Permute.useAdvancedEmails := false;
           Permute.webhookResponse := Permute.webhookResponse d |} ->
  c ∈ Permute.permute draw
        {| Permute.domain := Permute.domain d;
           Permute.useCustomNames := Permute.useCustomNames d;
           Permute.selectedCustomNames := Permute.selectedCustomNames d;
           Permute.usePersonalInfo := Permute.usePersonalInfo d;
           Permute.useAdvancedEmails := true;
           Permute.webhookResponse := Permute.webhookResponse d |}.
Proof.
  set (d0 := {| Permute.useAdvancedEmails := false |}).
  set (d1 := {| Permute.useAdvancedEmails := true |}).
  intros Hc.
  assert (Hlow : 25 <= confidence c).
  { apply rank_elem, allEmails_bounds in Hc as [_ Hlow]. by apply Hlow. }
  assert (Hup : forall x, x ∈ Permute.allEmails draw d0 -> x ∈ Permute.allEmails draw d1).
  { intros x [Hx|Hx]%allEmails_elem; apply allEmails_elem; [left|by right].
    by apply generated_with_advanced. }
  apply rank_keeps_top; [by apply Hup, rank_elem|].
  intros x Hx Hmail. apply allEmails_elem in Hx as [Hx|Hx].
  - cbn [d1 Permute.domain Permute.useAdvancedEmails] in Hx.
    change (Permute.webhookNamesOf d1) with (Permute.webhookNamesOf d0) in Hx.
    apply rank_elem, allEmailPatterns_elem in Hx as (i & n & Hn & Hx).
    apply personEmails_advanced in Hx as [Hx|Hx]; [|lia].
    assert (Hx0 : x ∈ Permute.allEmailPatterns (Permute.domain d)
                        (Permute.cleanDomain (Permute.domain d)) false draw
                        (Permute.webhookNamesOf d0))
      by (apply allEmailPatterns_elem; by exists i, n).
    destruct (rank_highest_confidence_wins _ x Hx0) as (r & Hr & _ & Hrm & Hle & _).
    assert (confidence r <= confidence c); [|lia].
    eapply rank_elem_top; [exact Hc| |congruence].
    apply allEmails_elem. by left.
  - eapply rank_elem_top; [exact Hc| |done]. apply allEmails_elem. by right.
Qed.

Lemma advanced_patterns_only_add_witness :
  mkCandidate "john.doe@example.com" 95
    ∈ Permute.permute Samples.noDraw
        {| Permute.domain := "example.com";
           Permute.useCustomNames := false;
           Permute.selectedCustomNames := [];
           Permute.usePersonalInfo := false;
           Permute.useAdvancedEmails := true;
           Permute.webhookResponse := Some [Permute.JStr "John Doe"] |}.
Proof.
  apply (advanced_patterns_only_add Samples.noDraw (Samples.johnDoeData "example.com")).
  vm_compute. apply list_elem_of_here.
Defined.

(** X27. When the insertion of the documents fails, nothing is
    stored.  The domain is settled with no email and the message of the
    insertion, as an error when the message is not empty and as
    completed when it is empty, and it counts as processed once.  The
    answer is a server error: with the message of the insertion while
    domains are left, and with the message of the rejected save when the
    domain is the last one, which completes the session. *)
Theorem insertion_failure_settles_domain
  (parallelSave : string) (s : Discovery.Session)
  (collection : list Discovery.EmailDocument) (i : nat)
  (entry : Discovery.DomainEntry) (message : string) :
  Discovery.status s = Discovery.s_processing ->
  Discovery.domains s !! i = Some entry ->
  Discovery.deStatus entry = Discovery.d_pending ->
  Discovery.limitedEmails s (Discovery.deDomain entry) <> [] ->
  let '(answer, s', collection') :=
    Discovery.processDomain parallelSave (Some message) s collection i in
  let final := Discovery.totalDomains s <=? Discovery.processedDomains s + 1 in
  answer = Discovery.ServerError (if final then parallelSave else message) /\
  collection' = collection /\
  Discovery.domains s' !! i =
    Some (Discovery.mkDomainEntry (Discovery.deDomain entry)
            (if JS.truthy message then Discovery.d_error else Discovery.d_completed)
            0 (Some message)) /\
  Discovery.processedDomains s' = Discovery.processedDomains s + 1 /\
  Discovery.totalEmailsDiscovered s' = Discovery.totalEmailsDiscovered s /\
  Discovery.status s' =
    if final then Discovery.s_completed else Discovery.s_processing.
Proof.
  intros Hst Hi Hp Hne.
  rewrite (processDomain_pending _ _ _ _ _ _ Hst Hi Hp). cbv zeta.
  assert (Hlt : (i < length (Discovery.domains s))%nat) by (by eapply lookup_lt_Some).
  destruct (Discovery.limitedEmails s (Discovery.deDomain entry)) as [|e l] eqn:Hl;
    [done|].
  cbn [Discovery.emailDocuments map]. unfold settleAt, failedEntry.
  cbn [Discovery.domains Discovery.processedDomains Discovery.totalEmailsDiscovered
         Discovery.status].
  rewrite list_lookup_insert_eq by done. rewrite Hst. by repeat split.
Qed.

Lemma insertion_failure_settles_domain_witness :
  let '(answer, s', collection') :=
    Discovery.processDomain Samples.parallelSave (Some "E11000 duplicate key")
      (Discovery.processDomain Samples.parallelSave None
         Samples.startedJohnDoe [] 0).1.2 [] 1 in
  answer = Discovery.ServerError Samples.parallelSave /\ collection' = [] /\
  Discovery.domains s' !! 1%nat =
    Some (Discovery.mkDomainEntry "example.org" Discovery.d_error 0
            (Some "E11000 duplicate key")) /\
  Discovery.processedDomains s' = 1 + 1 /\
  Discovery.totalEmailsDiscovered s' = 3 /\
  Discovery.status s' = Discovery.s_completed.
Proof.
  apply (insertion_failure_settles_domain Samples.parallelSave
           (Discovery.processDomain Samples.parallelSave None
              Samples.startedJohnDoe [] 0).1.2 [] 1
           (Discovery.mkDomainEntry "example.org" Discovery.d_pending 0 None)
           "E11000 duplicate key").
  - reflexivity.
  - reflexivity.
  - reflexivity.
  - vm_compute. discriminate.
Defined.
